(** * Plotter: a fixed-width text-table renderer

    Shallow embedding of [include/Plotter.hpp] and [src/Plotter.cpp].

    - [unsigned int], [int] and [size_t] values are integers of [Z]; every
      conversion between them is written out ([to_uint], [to_int],
      [to_size_t]).  Signed arithmetic that leaves the range of [int], and
      division by zero, have no defined behaviour in C++: the signed
      operations return [option].
    - The stream members and globals ([_table], [std::cout], [std::cerr])
      live in the state of a small monad [M]; the remaining members of the
      class are the record [Plotter].  The state also logs, in [reads], every
      index at which [_data] is dereferenced.
    - A computation ends normally, by a thrown exception, or has no defined
      behaviour (a read outside the data array or the label vector). *)

From Stdlib Require Import ZArith List String Ascii Lia Bool DecimalString.
From Stdlib Require Import Permutation.
Import ListNotations.
Open Scope string_scope.
Open Scope Z_scope.

(** ** Machine integers *)

Module Int.

Definition UINT_MOD : Z := 2 ^ 32.
Definition INT_MIN : Z := - 2 ^ 31.
Definition INT_MAX : Z := 2 ^ 31 - 1.
Definition SIZE_MOD : Z := 2 ^ 64.

(** Conversion to [unsigned int]: the value modulo 2^32. *)
Definition to_uint (z : Z) : Z := z mod UINT_MOD.

(** Conversion to [int]: the value congruent modulo 2^32 in the range of
    [int]. *)
Definition to_int (z : Z) : Z := (z + 2 ^ 31) mod UINT_MOD - 2 ^ 31.

(** Conversion to [size_t] (64 bits). *)
Definition to_size_t (z : Z) : Z := z mod SIZE_MOD.

(** The values of type [unsigned int]. *)
Definition is_uint (z : Z) : Prop := 0 <= z < UINT_MOD.

Definition in_int_range (z : Z) : bool := (INT_MIN <=? z) && (z <=? INT_MAX).

(** Signed [int] arithmetic: [None] where C++ leaves the behaviour
    undefined. *)
Definition int_add (a b : Z) : option Z :=
  if in_int_range (a + b) then Some (a + b) else None.

Definition int_sub (a b : Z) : option Z :=
  if in_int_range (a - b) then Some (a - b) else None.

(** [/] on [int] truncates towards zero. *)
Definition int_div (a b : Z) : option Z :=
  if b =? 0 then None
  else if in_int_range (Z.quot a b) then Some (Z.quot a b) else None.

End Int.
Import Int.

(** ** Text *)

Definition NL : string := String (ascii_of_nat 10) EmptyString.

(** [std::string(n, c)] for a count that fits. *)
Fixpoint replicate (n : nat) (c : ascii) : string :=
  match n with
  | O => EmptyString
  | S k => String c (replicate k c)
  end.

(** Decimal text of an integer, as [operator<<] writes it. *)
Definition dec (z : Z) : string := NilZero.string_of_int (Z.to_int z).

Definition strlen (s : string) : Z := Z.of_nat (String.length s).

(** Output of a text under a field width [w] (a [std::streamsize]) with the
    stream's initial adjustment and fill: the fill characters come first. *)
Definition pad_to_width (w : Z) (s : string) : string :=
  replicate (Z.to_nat (w - strlen s)) " " ++ s.

(** Substring test. *)
Fixpoint contains (needle hay : string) : bool :=
  String.prefix needle hay ||
  match hay with
  | EmptyString => false
  | String _ rest => contains needle rest
  end.

(** ** Element types *)

(** What the renderer needs from its element type [T]: the value [T()], the
    text written by [os << std::setprecision(p) << std::fixed << v] (field
    width aside), and the text written by [os << v] on a fresh stream. *)
Class Printable (T : Type) := {
  T_default : T;
  put_fixed : Z -> T -> string;
  put_plain : T -> string
}.

(** [int]: the manipulators for floating point do not affect it. *)
#[export] Instance Printable_int : Printable Z := {
  T_default := 0;
  put_fixed := fun _ v => dec v;
  put_plain := dec
}.

(** [std::string]. *)
#[export] Instance Printable_string : Printable string := {
  T_default := EmptyString;
  put_fixed := fun _ v => v;
  put_plain := fun v => v
}.

(** *** [double]

    A finite [double] is kept as its exact value
    [(-1)^dneg * dman * 2^dexp]; infinities and NaN are left out.  The
    conversions round the exact value to the nearest decimal, ties to
    even. *)
Module Double.

Record double := mkDouble { dneg : bool; dman : Z; dexp : Z }.

Definition zero : double := mkDouble false 0 0.

(** The absolute value as a fraction [num / den]. *)
Definition num (d : double) : Z :=
  if 0 <=? dexp d then dman d * 2 ^ dexp d else dman d.
Definition den (d : double) : Z :=
  if 0 <=? dexp d then 1 else 2 ^ (- dexp d).

Definition round_half_even (n d : Z) : Z :=
  let q := n / d in
  let r := n mod d in
  if 2 * r <? d then q
  else if d <? 2 * r then q + 1
  else if Z.even q then q else q + 1.

(** [|x| * 10^k] rounded to an integer, for any sign of [k]. *)
Definition scaled (d : double) (k : Z) : Z :=
  if 0 <=? k then round_half_even (num d * 10 ^ k) (den d)
  else round_half_even (num d) (den d * 10 ^ (- k)).

Definition sign (d : double) : string := if dneg d then "-" else "".

(** [n] written with at least [w] digits. *)
Definition dec_width (w : Z) (n : Z) : string :=
  replicate (Z.to_nat (w - strlen (dec n))) "0" ++ dec n.

(** The digits of [n / 10^p] in positional notation with [p] decimals. *)
Definition positional (p : Z) (n : Z) : string :=
  if p <=? 0 then dec n
  else dec (n / 10 ^ p) ++ "." ++ dec_width p (n mod 10 ^ p).

(** [%.pf]. *)
Definition fixed (p : Z) (d : double) : string :=
  sign d ++ positional p (scaled d p).

(** Decimal exponent of the leading digit of [n / d], for [0 < n]. *)
Fixpoint neg_exponent (fuel : nat) (n d : Z) (k : Z) : Z :=
  match fuel with
  | O => k
  | S f => if d <=? n * 10 ^ k then k else neg_exponent f n d (k + 1)
  end.

Definition exponent10 (d : double) : Z :=
  if den d <=? num d then strlen (dec (num d / den d)) - 1
  else - neg_exponent (S (Z.to_nat (Z.log2 (den d)))) (num d) (den d) 1.

(** Removal of the trailing zeros of a positional text, and of the point
    when no decimal is left. *)
Fixpoint strip_zeros_rev (l : list ascii) : list ascii :=
  match l with
  | c :: rest => if Ascii.eqb c "0" then strip_zeros_rev rest else l
  | [] => []
  end.

Definition strip_point_rev (l : list ascii) : list ascii :=
  match l with
  | c :: rest => if Ascii.eqb c "." then rest else l
  | [] => []
  end.

Definition strip (s : string) : string :=
  if contains "." s
  then string_of_list_ascii
         (rev (strip_point_rev (strip_zeros_rev (rev (list_ascii_of_string s)))))
  else s.

(** [%.Pg], the notation of a stream whose [floatfield] is unset. *)
Definition general (P0 : Z) (d : double) : string :=
  let P := if P0 =? 0 then 1 else P0 in
  if dman d =? 0 then sign d ++ "0"
  else
    let X0 := exponent10 d in
    let X := if 10 ^ P <=? scaled d (P - 1 - X0) then X0 + 1 else X0 in
    if (-4 <=? X) && (X <? P)
    then sign d ++ strip (positional (P - 1 - X) (scaled d (P - 1 - X)))
    else sign d ++ strip (positional (P - 1) (scaled d (P - 1 - X)))
         ++ "e" ++ (if X <? 0 then "-" else "+") ++ dec_width 2 (Z.abs X).

End Double.

#[export] Instance Printable_double : Printable Double.double := {
  T_default := Double.zero;
  put_fixed := Double.fixed;
  put_plain := Double.general 6
}.

(** ** Effects *)

(** The exceptions a [catch (const std::exception&)] clause receives, and
    the others. *)
Inductive exn : Type :=
| std_exception (what : string)
| foreign_exception.

(** The streams, and the log of the indices read in [_data]. *)
Record state : Type := mkState {
  table : string;
  reads : list Z;
  cout : string;
  cerr : string
}.

Inductive outcome (A : Type) : Type :=
| Normal (a : A) (s : state)
| Thrown (e : exn) (s : state)
| Undefined.
Arguments Normal {A} a s.
Arguments Thrown {A} e s.
Arguments Undefined {A}.

Definition M (A : Type) : Type := state -> outcome A.

Definition ret {A} (a : A) : M A := fun s => Normal a s.

Definition bind {A B} (m : M A) (k : A -> M B) : M B :=
  fun s =>
    match m s with
    | Normal a s' => k a s'
    | Thrown e s' => Thrown e s'
    | Undefined => Undefined
    end.

Notation "x <- m ;; k" := (bind m (fun x => k))
  (at level 61, m at next level, right associativity).
Notation "m ;; k" := (bind m (fun _ => k))
  (at level 61, right associativity).

Definition throw {A} (e : exn) : M A := fun s => Thrown e s.

Definition undefined {A} : M A := fun _ => Undefined.

(** [try { body } catch (...) { handler }]. *)
Definition try_catch {A} (body : M A) (handler : exn -> M A) : M A :=
  fun s =>
    match body s with
    | Thrown e s' => handler e s'
    | r => r
    end.

(** [_table << text]. *)
Definition put (text : string) : M unit :=
  fun s => Normal tt (mkState (table s ++ text) (reads s) (cout s) (cerr s)).

(** [std::cout << text] and [std::cerr << text]. *)
Definition put_cout (text : string) : M unit :=
  fun s => Normal tt (mkState (table s) (reads s) (cout s ++ text) (cerr s)).

Definition put_cerr (text : string) : M unit :=
  fun s => Normal tt (mkState (table s) (reads s) (cout s) (cerr s ++ text)).

(** [_table.str()]. *)
Definition table_str : M string := fun s => Normal (table s) s.

(** The largest [std::string]; implementations differ, none exceeds
    [PTRDIFF_MAX].  Every count this program passes is below 2^32 or, coming
    from a negative [int], above 2^64 - 2^31. *)
Definition string_max_size : Z := 2 ^ 63 - 1.

(** [std::string(n, c)] for a count [n] of type [size_t]; the text of the
    exception is the one of libstdc++. *)
Definition std_string (n : Z) (c : ascii) : M string :=
  if string_max_size <? n
  then throw (std_exception "basic_string::_M_create")
  else ret (replicate (Z.to_nat n) c).

(** [for (unsigned int i = 0; i < n; i++) acc = body(i, acc)], for locals
    [acc] the body updates. *)
Fixpoint for_from {S} (i : Z) (count : nat) (body : Z -> S -> M S) (acc : S)
  : M S :=
  match count with
  | O => ret acc
  | S k => acc' <- body i acc ;; for_from (i + 1) k body acc'
  end.

Definition for_upto {S} (n : Z) (body : Z -> S -> M S) (acc : S) : M S :=
  for_from 0 (Z.to_nat n) body acc.

(** ** The class *)

Inductive DataArrangement : Type := ColumnMajor | RowMajor.

(** The members of [Plotter<T>] other than the stream [_table].  [_data] is
    [None] for a null pointer and otherwise the array it points to. *)
Record Plotter (T : Type) : Type := mkPlotter {
  _data : option (list T);
  _data_arrangement : DataArrangement;
  _column_names : list string;
  _name : string;
  _table_width : Z;
  _column_width : Z;
  _size : Z;
  _cols : Z;
  _rows : Z;
  _precision : Z
}.
Arguments mkPlotter {T}.
Arguments _data {T}.
Arguments _data_arrangement {T}.
Arguments _column_names {T}.
Arguments _name {T}.
Arguments _table_width {T}.
Arguments _column_width {T}.
Arguments _size {T}.
Arguments _cols {T}.
Arguments _rows {T}.
Arguments _precision {T}.

(** What a call of the constructor does. *)
Inductive construction (T : Type) : Type :=
| Constructed (p : Plotter T)
| invalid_argument (what : string)
| UndefinedConstruction.
Arguments Constructed {T} p.
Arguments invalid_argument {T} what.
Arguments UndefinedConstruction {T}.

Section Plotter.

Context {T : Type} `{Printable T}.

(** [Some what] when [std::invalid_argument(what)] is thrown. *)
Definition validate_inputs_throw_exception
    (data : option (list T)) (column_names : list string)
    (table_width size : Z) : option string :=
  match data with
  | None => Some "Plotter: data pointer cannot be null."
  | Some _ =>
    match column_names with
    | [] => Some "Plotter: column names vector cannot be empty."
    | _ :: _ =>
      if table_width =? 0 then Some "Plotter: table width cannot be zero."
      else if size =? 0 then Some "Plotter: size cannot be zero."
      else None
    end
  end.

(** [(table_width - (cols + 1)) / cols] on [int]. *)
Definition calculate_column_width (table_width cols : Z) : option Z :=
  match int_add cols 1 with
  | None => None
  | Some c1 =>
    match int_sub table_width c1 with
    | None => None
    | Some d => int_div d cols
    end
  end.

(** [size / column_count] on [int]. *)
Definition calculate_rows (size column_count : Z) : option Z :=
  int_div size column_count.

(** The constructor.  Its [unsigned int] arguments are converted to the
    [int] parameters of the two helpers, and the [int] results to the
    [unsigned int] members. *)
Definition Plotter_ctor (data : option (list T)) (name : string)
    (column_names : list string) (table_width size : Z)
    (data_arrangement : DataArrangement) : construction T :=
  match validate_inputs_throw_exception data column_names table_width size with
  | Some what => invalid_argument what
  | None =>
    let cols := to_uint (Z.of_nat (List.length column_names)) in
    match calculate_rows (to_int size) (to_int cols) with
    | None => UndefinedConstruction
    | Some rows =>
      match calculate_column_width (to_int table_width) (to_int cols) with
      | None => UndefinedConstruction
      | Some column_width =>
        Constructed
          (mkPlotter data data_arrangement column_names name table_width
             (to_uint column_width) size cols (to_uint rows) 8)
      end
    end
  end.

(** The stream of a new object is empty. *)
Definition initial_state : state := mkState "" [] "" "".

Variable this : Plotter T.

(** [_table << "+" << std::string(_table_width - 2, '-') << "+" << "\n"];
    the subtraction is on [unsigned int]. *)
Definition put_border : M unit :=
  put "+" ;;
  dashes <- std_string (to_uint (_table_width this - 2)) "-" ;;
  put dashes ;;
  put "+" ;;
  put NL.

Definition print_endline : M unit := put_border.

(** The two paddings are computed on [size_t] and converted to [int]; as
    counts of [std::string] they are converted back to [size_t].  The
    operands of [<<] are evaluated from left to right. *)
Definition print_table_header : M unit :=
  let room := to_size_t (_table_width this - strlen (_name this) - 2) in
  let left_padding := to_int (room / 2) in
  let right_padding := to_int (to_size_t (room - to_size_t left_padding)) in
  put NL ;;
  put_border ;;
  put "|" ;;
  left <- std_string (to_size_t left_padding) " " ;;
  put left ;;
  put (_name this) ;;
  right <- std_string (to_size_t right_padding) " " ;;
  put right ;;
  put "|" ;;
  put NL ;;
  put_border.

(** [_column_names[i]]. *)
Definition column_name (i : Z) : M string :=
  match nth_error (_column_names this) (Z.to_nat i) with
  | Some header => ret header
  | None => undefined
  end.

Definition print_columns_header : M unit :=
  put "|" ;;
  for_upto (_cols this) (fun i _ =>
    header <- column_name i ;;
    let room := to_size_t (_column_width this - strlen header) in
    let left_padding := to_int (room / 2) in
    let right_padding := to_int (to_size_t (room - to_size_t left_padding)) in
    left <- std_string (to_size_t left_padding) " " ;;
    put left ;;
    put header ;;
    right <- std_string (to_size_t right_padding) " " ;;
    put right ;;
    put "|") tt ;;
  put NL ;;
  print_endline.

(** [_data[index]]; the index is logged. *)
Definition data_at (index : Z) : M T :=
  fun s =>
    match _data this with
    | None => Undefined
    | Some buffer =>
      match nth_error buffer (Z.to_nat index) with
      | Some value =>
        Normal value (mkState (table s) (reads s ++ [index]) (cout s) (cerr s))
      | None => Undefined
      end
    end.

Definition col_width_is_sufficient (value : T) (column_width : Z) : bool :=
  strlen (put_fixed (to_int (_precision this)) value) <=? column_width.

(** The annotation of a value that does not fit. *)
Definition too_long_note (j : Z) (value : T) : string :=
  NL ++ NL ++ "cell: " ++ dec j ++ " value: " ++ put_plain value.

(** The text of a cell: the value under [std::setw(_column_width)],
    [std::setprecision(_precision)] and [std::fixed]. *)
Definition cell_text (value : T) : string :=
  pad_to_width (to_int (_column_width this))
    (put_fixed (to_int (_precision this)) value).

(** One turn of the loop of [print_row]: [start_index] and [j] are
    [unsigned int], [stride] is [int], and the index
    [start_index + j * stride] is computed on [unsigned int].  The local
    stream [too_long_values_buffer] is passed along. *)
Definition print_row_cell (start_index stride : Z) (j : Z)
    (too_long_values_buffer : string) : M string :=
  value <- data_at (to_uint (start_index + to_uint (j * to_uint stride))) ;;
  let '(value, too_long_values_buffer) :=
    if negb (col_width_is_sufficient value (_column_width this))
    then (T_default, too_long_values_buffer ++ too_long_note j value)
    else (value, too_long_values_buffer) in
  put (cell_text value) ;;
  put "|" ;;
  ret too_long_values_buffer.

Definition print_row (start_index cell_count stride : Z) : M unit :=
  put "|" ;;
  too_long_values_buffer <-
    for_upto cell_count (print_row_cell start_index stride) "" ;;
  put too_long_values_buffer ;;
  put NL.

Definition print_content : M unit :=
  match _data_arrangement this with
  | RowMajor =>
    for_upto (_rows this) (fun i _ =>
      print_row (to_uint (i * _cols this)) (_cols this) 1) tt
  | ColumnMajor =>
    for_upto (_rows this) (fun i _ =>
      print_row i (_cols this) (to_int (_rows this))) tt
  end ;;
  print_endline.

(** The body of the [try] block of both entry points. *)
Definition render : M unit :=
  print_table_header ;;
  print_columns_header ;;
  print_content.

(** The texts written by the [catch] clauses of [print_table] and of
    [get_table]. *)
Definition print_table_diagnostic (e : exn) : string :=
  match e with
  | std_exception what => "Error printing table: " ++ what
  | foreign_exception =>
    "Error: An unknown error occurred while printing the table."
  end.

Definition get_table_diagnostic (e : exn) : string :=
  match e with
  | std_exception what =>
    "Error printing table: " ++ _name this ++ NL ++ what ++ NL
  | foreign_exception =>
    "Error: An unknown error occurred while printing the table: "
    ++ _name this ++ NL
  end.

Definition print_table : M unit :=
  try_catch render (fun e => put_cout (print_table_diagnostic e)) ;;
  put NL ;;
  text <- table_str ;;
  put_cout text.

Definition get_table : M string :=
  try_catch render (fun e => put_cerr (get_table_diagnostic e)) ;;
  put NL ;;
  table_str.

End Plotter.

(** ** The layout as functions of the data *)

(** The counter values of [for_from i count]. *)
Fixpoint zrange (i : Z) (count : nat) : list Z :=
  match count with
  | O => []
  | S k => i :: zrange (i + 1) k
  end.

(** A state after more text was written to [_table] and more indices were
    read. *)
Definition emit (text : string) (indices : list Z) (s : state) : state :=
  mkState (table s ++ text) (reads s ++ indices) (cout s) (cerr s).

(** The elements of an array at a list of indices, if all are inside. *)
Fixpoint fetch {T} (buffer : list T) (indices : list Z) : option (list T) :=
  match indices with
  | [] => Some []
  | i :: rest =>
    match nth_error buffer (Z.to_nat i), fetch buffer rest with
    | Some v, Some vs => Some (v :: vs)
    | _, _ => None
    end
  end.

Fixpoint concat_text (l : list string) : string :=
  match l with
  | [] => ""
  | t :: rest => t ++ concat_text rest
  end.

Section Layout.

Context {T : Type} `{Printable T}.
Variable this : Plotter T.

(** The border line of the table. *)
Definition border : string :=
  "+" ++ replicate (Z.to_nat (to_uint (_table_width this - 2))) "-" ++ "+" ++ NL.

(** The indices [print_row] reads, in order. *)
Definition row_indices (start_index cell_count stride : Z) : list Z :=
  map (fun j => to_uint (start_index + to_uint (j * to_uint stride)))
      (zrange 0 (Z.to_nat cell_count)).

(** The arguments [print_content] gives [print_row] for row [i]. *)
Definition row_start (i : Z) : Z :=
  match _data_arrangement this with
  | RowMajor => to_uint (i * _cols this)
  | ColumnMajor => i
  end.

Definition row_stride : Z :=
  match _data_arrangement this with
  | RowMajor => 1
  | ColumnMajor => to_int (_rows this)
  end.

(** The index read for cell [j] of row [i], as [print_content] and
    [print_row] compute it. *)
Definition cell_index (i j : Z) : Z :=
  to_uint (row_start i + to_uint (j * to_uint row_stride)).

(** What a cell shows: the value, or [T()] when its text is too long. *)
Definition fits (value : T) : bool :=
  col_width_is_sufficient this value (_column_width this).

Definition shown (value : T) : T :=
  if fits value then value else T_default.

Definition cell (value : T) : string := cell_text this (shown value) ++ "|".

Definition cells (values : list T) : string := concat_text (map cell values).

(** The annotations of a row whose first value is in cell [j]. *)
Fixpoint notes (j : Z) (values : list T) : string :=
  match values with
  | [] => ""
  | v :: rest =>
    (if fits v then "" else too_long_note j v) ++ notes (j + 1) rest
  end.

Definition row_text (values : list T) : string :=
  "|" ++ cells values ++ notes 0 values ++ NL.

(** The values of the content rows [rows], if every index is inside. *)
Fixpoint content_values (buffer : list T) (rows : list Z)
  : option (list (list T)) :=
  match rows with
  | [] => Some []
  | i :: rest =>
    match fetch buffer (row_indices (row_start i) (_cols this) row_stride),
          content_values buffer rest with
    | Some vs, Some vss => Some (vs :: vss)
    | _, _ => None
    end
  end.

Definition content_indices (rows : list Z) : list Z :=
  flat_map (fun i => row_indices (row_start i) (_cols this) row_stride) rows.

(** The banner line of the title for given paddings. *)
Definition title_line (left_padding right_padding : Z) : string :=
  "|" ++ replicate (Z.to_nat left_padding) " " ++ _name this
      ++ replicate (Z.to_nat right_padding) " " ++ "|" ++ NL.

End Layout.

(** The index of cell [j] of row [i] in the words of the specification. *)
Definition spec_index (arrangement : DataArrangement) (rows cols i j : Z) : Z :=
  match arrangement with
  | RowMajor => i * cols + j
  | ColumnMajor => i + j * rows
  end.

(** The arithmetic of the constructor stays inside [int]. *)
Definition geometry_fits_int (column_names : list string) (table_width : Z)
  : Prop :=
  Z.of_nat (List.length column_names) < INT_MAX /\
  INT_MIN <= to_int table_width - (Z.of_nat (List.length column_names) + 1).

(** Programs that only append to the streams and to the log behave the same
    after any earlier output. *)
Definition join (s d : state) : state :=
  mkState (table s ++ table d) (reads s ++ reads d)
          (cout s ++ cout d) (cerr s ++ cerr d).

Definition shift {A} (s : state) (o : outcome A) : outcome A :=
  match o with
  | Normal a d => Normal a (join s d)
  | Thrown e d => Thrown e (join s d)
  | Undefined => Undefined
  end.

Definition framed {A} (m : M A) : Prop :=
  forall s, m s = shift s (m initial_state).

(** Programs that write neither to [std::cout] nor to [std::cerr]. *)
Definition quiet {A} (m : M A) : Prop :=
  forall s,
    match m s with
    | Normal _ s' | Thrown _ s' => cout s' = cout s /\ cerr s' = cerr s
    | Undefined => True
    end.

(** A reading of "failures are reported only on a side channel" for
    [print_table]: standard output receives the text of the table and
    nothing else. *)
Definition stdout_receives_only_the_table (T : Type) `{Printable T} : Prop :=
  forall (this : Plotter T) (s s' : state),
    print_table this s = Normal tt s' -> cout s' = cout s ++ table s'.

(** A text followed by the fill characters, up to the width [w]. *)
Definition right_padded (w : Z) (text : string) : string :=
  text ++ replicate (Z.to_nat (w - strlen text)) " ".

(** The rule for a value that does not fit, with the padding after the text
    of [T()]: a row of the single cell [index] would be the padded text
    between two [|], the annotation, and a newline. *)
Definition overflow_cell_is_right_padded (T : Type) `{Printable T} : Prop :=
  forall (this : Plotter T) (buffer : list T) (index : Z) (v : T)
         (s s' : state),
    _data this = Some buffer ->
    nth_error buffer (Z.to_nat index) = Some v ->
    col_width_is_sufficient this v (_column_width this) = false ->
    print_row this index 1 1 s = Normal tt s' ->
    table s'
    = table s ++ "|"
      ++ right_padded (to_int (_column_width this))
           (put_fixed (to_int (_precision this)) T_default)
      ++ "|" ++ too_long_note 0 v ++ NL.

(** The [double] nearest to 12345.678: [0x1.81cd6c8b43958p+13]. *)
Definition d12345_678 : Double.double :=
  Double.mkDouble false 0x181cd6c8b43958 (13 - 52).

(** The [double] 0.5. *)
Definition d0_5 : Double.double := Double.mkDouble false 1 (-1).

Section HeaderLayout.

Context {T : Type} `{Printable T}.
Variable this : Plotter T.

(** One turn of the loop of [print_columns_header]. *)
Definition columns_header_cell (i : Z) (_ : unit) : M unit :=
  header <- column_name this i ;;
  let room := to_size_t (_column_width this - strlen header) in
  let left_padding := to_int (room / 2) in
  let right_padding := to_int (to_size_t (room - to_size_t left_padding)) in
  left <- std_string (to_size_t left_padding) " " ;;
  put left ;;
  put header ;;
  right <- std_string (to_size_t right_padding) " " ;;
  put right ;;
  put "|".

(** A label centred in its column: the smaller half of the spaces first. *)
Definition header_cell (header : string) : string :=
  let room := _column_width this - strlen header in
  replicate (Z.to_nat (room / 2)) " " ++ header
  ++ replicate (Z.to_nat (room - room / 2)) " " ++ "|".

Definition header_cells (headers : list string) : string :=
  concat_text (map header_cell headers).

(** The line of the labels. *)
Definition header_line : string :=
  "|" ++ header_cells (_column_names this) ++ NL.

End HeaderLayout.

(** The exception of a [std::string] that cannot be that long. *)
Definition length_error : exn := std_exception "basic_string::_M_create".

(** The three lines of the banner of a name that fits. *)
Definition banner {T} (this : Plotter T) : string :=
  let room := _table_width this - strlen (_name this) - 2 in
  NL ++ border this ++ title_line this (room / 2) (room - room / 2)
     ++ border this.

(** [k] copies of a text. *)
Fixpoint copies (k : nat) (text : string) : string :=
  match k with
  | O => ""
  | S k' => text ++ copies k' text
  end.

(** [k + 1] calls of [get_table] in a row; the result is the one of the
    last. *)
Fixpoint get_table_calls {T} `{Printable T} (this : Plotter T) (k : nat)
  : M string :=
  match k with
  | O => get_table this
  | S k' => get_table this ;; get_table_calls this k'
  end.

(** The same object with another arrangement. *)
Definition with_arrangement {T} (this : Plotter T)
    (arrangement : DataArrangement) : Plotter T :=
  mkPlotter (_data this) arrangement (_column_names this) (_name this)
    (_table_width this) (_column_width this) (_size this) (_cols this)
    (_rows this) (_precision this).

(** The same object on another array. *)
Definition with_data {T} (this : Plotter T) (buffer : list T) : Plotter T :=
  mkPlotter (Some buffer) (_data_arrangement this) (_column_names this)
    (_name this) (_table_width this) (_column_width this) (_size this)
    (_cols this) (_rows this) (_precision this).

(** ** Basic facts *)

Lemma append_nil_r (s : string) : s ++ "" = s.
Proof. induction s as [|c s IH]; simpl; [reflexivity | now rewrite IH]. Qed.

Lemma append_assoc (a b c : string) : (a ++ b) ++ c = a ++ (b ++ c).
Proof. induction a as [|x a IH]; simpl; [reflexivity | now rewrite IH]. Qed.

Lemma length_append (a b : string) :
  String.length (a ++ b) = (String.length a + String.length b)%nat.
Proof. induction a as [|x a IH]; simpl; [reflexivity | now rewrite IH]. Qed.

Lemma length_replicate (n : nat) (c : ascii) : String.length (replicate n c) = n.
Proof. induction n as [|n IH]; simpl; [reflexivity | now rewrite IH]. Qed.

Lemma to_uint_small (z : Z) : 0 <= z < 2 ^ 32 -> to_uint z = z.
Proof. intros; unfold to_uint, UINT_MOD; now apply Z.mod_small. Qed.

Lemma to_size_t_small (z : Z) : 0 <= z < 2 ^ 64 -> to_size_t z = z.
Proof. intros; unfold to_size_t, SIZE_MOD; now apply Z.mod_small. Qed.

Lemma to_int_small (z : Z) : - 2 ^ 31 <= z < 2 ^ 31 -> to_int z = z.
Proof.
  intros; unfold to_int, UINT_MOD.
  rewrite Z.mod_small; lia.
Qed.

Lemma to_uint_range (z : Z) : 0 <= to_uint z < 2 ^ 32.
Proof. unfold to_uint, UINT_MOD; apply Z.mod_pos_bound; lia. Qed.

Lemma to_int_range (z : Z) : - 2 ^ 31 <= to_int z < 2 ^ 31.
Proof.
  unfold to_int, UINT_MOD.
  pose proof (Z.mod_pos_bound (z + 2 ^ 31) (2 ^ 32)); lia.
Qed.

Lemma to_uint_to_int (z : Z) : to_uint (to_int z) = to_uint z.
Proof.
  unfold to_uint, to_int, UINT_MOD.
  rewrite Zminus_mod_idemp_l.
  f_equal; lia.
Qed.

Lemma in_int_range_true (z : Z) :
  in_int_range z = true <-> - 2 ^ 31 <= z < 2 ^ 31.
Proof. unfold in_int_range, INT_MIN, INT_MAX; lia. Qed.

(** ** Construction *)

Section Construction.

Context {T : Type} `{Printable T}.

Lemma validate_inputs_spec (data : option (list T)) column_names table_width size :
  validate_inputs_throw_exception data column_names table_width size = None <->
  data <> None /\ column_names <> [] /\ table_width <> 0 /\ size <> 0.
Proof.
  unfold validate_inputs_throw_exception.
  destruct data as [buffer|]; [|split; [discriminate | intros [E _]; now elim E]].
  destruct column_names as [|c cs];
    [split; [discriminate | intros (_ & E & _); now elim E]|].
  destruct (Z.eqb_spec table_width 0) as [E|E];
    [split; [discriminate | intros (_ & _ & E' & _); now elim E']|].
  destruct (Z.eqb_spec size 0) as [E'|E'];
    [split; [discriminate | intros (_ & _ & _ & E''); now elim E'']|].
  split; [intros _; repeat split; congruence | reflexivity].
Qed.

Lemma ctor_constructed (data : option (list T)) name column_names table_width
    size arrangement p :
  Plotter_ctor data name column_names table_width size arrangement
    = Constructed p ->
  let cols := to_uint (Z.of_nat (List.length column_names)) in
  exists rows column_width,
    validate_inputs_throw_exception data column_names table_width size = None /\
    calculate_rows (to_int size) (to_int cols) = Some rows /\
    calculate_column_width (to_int table_width) (to_int cols)
      = Some column_width /\
    p = mkPlotter data arrangement column_names name table_width
          (to_uint column_width) size cols (to_uint rows) 8.
Proof.
  intros E cols; unfold Plotter_ctor in E; fold cols in E.
  destruct (validate_inputs_throw_exception _ _ _ _); [discriminate|].
  destruct (calculate_rows _ _) as [rows|]; [|discriminate].
  destruct (calculate_column_width _ _) as [width|]; [|discriminate].
  exists rows, width; repeat split; congruence.
Qed.

Lemma int_div_some (a b q : Z) :
  int_div a b = Some q -> b <> 0 /\ q = Z.quot a b /\ in_int_range q = true.
Proof.
  unfold int_div.
  destruct (Z.eqb_spec b 0); [discriminate|].
  destruct (in_int_range (Z.quot a b)) eqn:R; [|discriminate].
  intros E; injection E as <-; auto.
Qed.

Lemma calculate_column_width_some (table_width cols w : Z) :
  calculate_column_width table_width cols = Some w ->
  cols <> 0 /\ w = Z.quot (table_width - (cols + 1)) cols /\
  in_int_range w = true.
Proof.
  unfold calculate_column_width, int_add, int_sub.
  destruct (in_int_range (cols + 1)); [|discriminate].
  destruct (in_int_range (table_width - (cols + 1))); [|discriminate].
  apply int_div_some.
Qed.

(** C3: after a successful construction the stored column width is
    [(table_width - (cols + 1)) / cols], computed on [int] with truncating
    division and converted to [unsigned int]; a table too narrow for its
    columns is not rejected, the quotient is then zero or negative, and a
    negative one is stored modulo 2^32.  When [table_width] and the number of
    labels fit [int] the operands are these very numbers. *)
Theorem column_width_at_construction
    (data : option (list T)) name column_names table_width size arrangement p :
  Plotter_ctor data name column_names table_width size arrangement
    = Constructed p ->
  let cols := to_int (_cols p) in
  let width := Z.quot (to_int table_width - (cols + 1)) cols in
  _cols p = to_uint (Z.of_nat (List.length column_names)) /\
  in_int_range width = true /\
  _column_width p = to_uint width /\
  (0 <= width -> _column_width p = width) /\
  (width < 0 -> _column_width p = width + 2 ^ 32) /\
  (0 < cols -> to_int table_width < 2 * cols + 1 -> width <= 0) /\
  (0 <= table_width <= INT_MAX ->
   Z.of_nat (List.length column_names) <= INT_MAX ->
   width = Z.quot (table_width - (Z.of_nat (List.length column_names) + 1))
                  (Z.of_nat (List.length column_names))).
Proof.
  intros E cols width.
  destruct (ctor_constructed _ _ _ _ _ _ _ E) as (r & w & _ & _ & Hw & ->).
  apply calculate_column_width_some in Hw as (Hc & -> & Hr).
  subst cols width; cbn [_cols _column_width].
  apply in_int_range_true in Hr.
  split; [reflexivity|].
  split; [apply in_int_range_true; exact Hr|].
  split; [reflexivity|].
  split; [|split; [|split]].
  - revert Hr; generalize (Z.quot (to_int table_width
      - (to_int (to_uint (Z.of_nat (Datatypes.length column_names))) + 1))
      (to_int (to_uint (Z.of_nat (Datatypes.length column_names))))).
    intros w Hr Hp; apply to_uint_small; lia.
  - revert Hr; generalize (Z.quot (to_int table_width
      - (to_int (to_uint (Z.of_nat (Datatypes.length column_names))) + 1))
      (to_int (to_uint (Z.of_nat (Datatypes.length column_names))))).
    intros w Hr Hn; unfold to_uint, UINT_MOD.
    rewrite <- (Z_mod_plus_full _ 1), Z.mod_small; lia.
  - intros Hpos Hlt.
    set (c := to_int (to_uint (Z.of_nat (Datatypes.length column_names)))) in *.
    destruct (Z_lt_le_dec (to_int table_width - (c + 1)) 0) as [Hneg|Hnn].
    + pose proof (Z.quot_opp_l (- (to_int table_width - (c + 1))) c Hc) as Ho.
      rewrite Z.opp_involutive in Ho; rewrite Ho.
      pose proof (Z.quot_pos (- (to_int table_width - (c + 1))) c); lia.
    + rewrite Z.quot_small; lia.
  - intros Htw Hn; unfold INT_MAX in *.
    rewrite (to_uint_small (Z.of_nat _)) by lia.
    rewrite !to_int_small by lia.
    reflexivity.
Qed.

(** C6: the constructor throws [std::invalid_argument] exactly when the data
    pointer is null, the list of labels is empty, [table_width] is zero or
    [size] is zero; with none of the four, and the arithmetic of the two
    helpers inside [int], it returns an object holding its arguments. *)
Theorem construction_fails_iff
    (data : option (list T)) name column_names table_width size arrangement :
  ((exists what,
      Plotter_ctor data name column_names table_width size arrangement
        = invalid_argument what) <->
   (data = None \/ column_names = [] \/ table_width = 0 \/ size = 0)) /\
  (data <> None -> column_names <> [] -> table_width <> 0 -> size <> 0 ->
   geometry_fits_int column_names table_width ->
   exists p,
     Plotter_ctor data name column_names table_width size arrangement
       = Constructed p /\
     _data p = data /\ _name p = name /\ _column_names p = column_names /\
     _table_width p = table_width /\ _size p = size /\
     _data_arrangement p = arrangement /\
     _cols p = Z.of_nat (List.length column_names) /\ _precision p = 8).
Proof.
  split.
  - unfold Plotter_ctor.
    destruct (validate_inputs_throw_exception data column_names table_width size)
      as [what|] eqn:V.
    + split; [intros _ | intros _; now exists what].
      destruct data; [|now left].
      destruct column_names; [now right; left|].
      destruct (Z.eqb_spec table_width 0); [now right; right; left|].
      destruct (Z.eqb_spec size 0); [now right; right; right|].
      unfold validate_inputs_throw_exception in V.
      destruct (Z.eqb_spec table_width 0); [contradiction|].
      destruct (Z.eqb_spec size 0); [contradiction|discriminate].
    + apply validate_inputs_spec in V as (V1 & V2 & V3 & V4).
      split; [|intros [E|[E|[E|E]]]; contradiction].
      intros [what E].
      destruct (calculate_rows _ _); [|discriminate].
      destruct (calculate_column_width _ _); discriminate.
  - intros V1 V2 V3 V4 [Hn Hsub].
    unfold Plotter_ctor.
    assert (V : validate_inputs_throw_exception data column_names table_width size
                = None) by (apply validate_inputs_spec; auto).
    rewrite V.
    assert (Hpos : 0 < Z.of_nat (List.length column_names))
      by (destruct column_names; [contradiction | simpl; lia]).
    unfold INT_MAX, INT_MIN in *.
    rewrite (to_uint_small (Z.of_nat _)) by lia.
    rewrite (to_int_small (Z.of_nat _)) by lia.
    set (n := Z.of_nat (List.length column_names)) in *.
    pose proof (to_int_range table_width) as Rtw.
    pose proof (to_int_range size) as Rsz.
    assert (Hq : forall a, - 2 ^ 31 <= a < 2 ^ 31 ->
                           - 2 ^ 31 <= Z.quot a n < 2 ^ 31).
    { intros a Ha.
      destruct (Z_lt_le_dec a 0) as [Hneg|Hnn].
      - pose proof (Z.quot_opp_l (- a) n ltac:(lia)) as Ho.
        rewrite Z.opp_involutive in Ho; rewrite Ho.
        pose proof (Z.quot_pos (- a) n ltac:(lia) ltac:(lia)).
        assert (Z.quot (- a) n <= - a)
          by (rewrite Z.quot_div_nonneg by lia;
              apply Z.div_le_upper_bound; nia).
        lia.
      - pose proof (Z.quot_pos a n ltac:(lia) ltac:(lia)).
        assert (Z.quot a n <= a)
          by (rewrite Z.quot_div_nonneg by lia;
              apply Z.div_le_upper_bound; nia).
        lia. }
    unfold calculate_rows, calculate_column_width, int_add, int_sub, int_div.
    destruct (Z.eqb_spec n 0); [lia|].
    rewrite (proj2 (in_int_range_true (Z.quot (to_int size) n))) by (apply Hq; lia).
    rewrite (proj2 (in_int_range_true (n + 1))) by lia.
    rewrite (proj2 (in_int_range_true (to_int table_width - (n + 1)))) by lia.
    rewrite (proj2 (in_int_range_true (Z.quot (to_int table_width - (n + 1)) n)))
      by (apply Hq; lia).
    eexists; split; [reflexivity|].
    cbn; repeat split; reflexivity.
Qed.

End Construction.

(** The construction of a one-column-too-narrow table. *)
Lemma column_width_at_construction_witness :
  exists p : Plotter Z,
    Plotter_ctor (Some [7]) "t" ["a"; "b"; "c"] 1 1 RowMajor = Constructed p /\
    _column_width p = 4294967295.
Proof.
  eexists; split; [reflexivity|].
  pose proof (column_width_at_construction (Some [7]) "t" ["a"; "b"; "c"] 1 1
                RowMajor _ eq_refl) as (_ & _ & E & _).
  exact E.
Defined.

(** ** Laws of the effects *)

Lemma emit_emit (t1 t2 : string) (r1 r2 : list Z) (s : state) :
  emit t2 r2 (emit t1 r1 s) = emit (t1 ++ t2) (r1 ++ r2) s.
Proof.
  unfold emit; cbn [table reads cout cerr].
  now rewrite append_assoc, <- app_assoc.
Qed.

Lemma emit_nil (s : state) : emit "" [] s = s.
Proof.
  destruct s; unfold emit; cbn [table reads cout cerr].
  now rewrite append_nil_r, app_nil_r.
Qed.

Lemma put_eq (text : string) (s : state) : put text s = Normal tt (emit text [] s).
Proof. unfold put, emit; now rewrite app_nil_r. Qed.

Lemma bind_eq {A B} (m : M A) (k : A -> M B) (s s' : state) (a : A) :
  m s = Normal a s' -> bind m k s = k a s'.
Proof. unfold bind; now intros ->. Qed.

Lemma std_string_eq (n : Z) (c : ascii) (s : state) :
  n <= string_max_size ->
  std_string n c s = Normal (replicate (Z.to_nat n) c) s.
Proof.
  unfold std_string; intros Hn.
  destruct (Z.ltb_spec string_max_size n); [lia | reflexivity].
Qed.

Lemma join_assoc (a b c : state) : join (join a b) c = join a (join b c).
Proof.
  unfold join; cbn [table reads cout cerr].
  now rewrite !append_assoc, <- !app_assoc.
Qed.

Lemma join_initial_r (s : state) : join s initial_state = s.
Proof.
  destruct s; unfold join, initial_state; cbn [table reads cout cerr].
  now rewrite !append_nil_r, app_nil_r.
Qed.

Lemma shift_shift {A} (a b : state) (o : outcome A) :
  shift a (shift b o) = shift (join a b) o.
Proof. destruct o; cbn [shift]; now rewrite ?join_assoc. Qed.

Lemma framed_ret {A} (a : A) : framed (ret a).
Proof. intros s; cbn; now rewrite join_initial_r. Qed.

Lemma framed_throw {A} (e : exn) : framed (@throw A e).
Proof. intros s; cbn; now rewrite join_initial_r. Qed.

Lemma framed_undefined {A} : framed (@undefined A).
Proof. now intros s. Qed.

Lemma framed_put (text : string) : framed (put text).
Proof. intros s; cbn; unfold join; cbn; now rewrite !append_nil_r, app_nil_r. Qed.

Lemma framed_put_cout (text : string) : framed (put_cout text).
Proof. intros s; cbn; unfold join; cbn; now rewrite !append_nil_r, app_nil_r. Qed.

Lemma framed_put_cerr (text : string) : framed (put_cerr text).
Proof. intros s; cbn; unfold join; cbn; now rewrite !append_nil_r, app_nil_r. Qed.

Lemma framed_bind {A B} (m : M A) (k : A -> M B) :
  framed m -> (forall a, framed (k a)) -> framed (bind m k).
Proof.
  intros Hm Hk s; unfold bind.
  rewrite (Hm s).
  destruct (m initial_state) as [a d|e d|]; cbn [shift]; try reflexivity.
  rewrite (Hk a (join s d)), (Hk a d).
  now rewrite shift_shift.
Qed.

Lemma framed_try_catch {A} (body : M A) (handler : exn -> M A) :
  framed body -> (forall e, framed (handler e)) -> framed (try_catch body handler).
Proof.
  intros Hb Hh s; unfold try_catch.
  rewrite (Hb s).
  destruct (body initial_state) as [a d|e d|]; cbn [shift]; try reflexivity.
  rewrite (Hh e (join s d)), (Hh e d).
  now rewrite shift_shift.
Qed.

Lemma framed_std_string (n : Z) (c : ascii) : framed (std_string n c).
Proof.
  unfold std_string; destruct (string_max_size <? n);
    [apply framed_throw | apply framed_ret].
Qed.

Lemma framed_for_from {S} (body : Z -> S -> M S) :
  (forall i acc, framed (body i acc)) ->
  forall count i acc, framed (for_from i count body acc).
Proof.
  intros Hb; induction count as [|k IH]; intros i acc; cbn [for_from].
  - apply framed_ret.
  - apply framed_bind; [apply Hb | intros a; apply IH].
Qed.

Create HintDb framed.

#[local] Hint Resolve framed_ret framed_throw framed_undefined framed_put
  framed_put_cout framed_put_cerr framed_std_string : framed.

Section Rendering.

Context {T : Type} `{Printable T}.
Variable this : Plotter T.

Lemma framed_data_at (index : Z) : framed (data_at this index).
Proof.
  intros s; unfold data_at.
  destruct (_data this) as [buffer|]; [|reflexivity].
  destruct (nth_error buffer (Z.to_nat index)); [|reflexivity].
  cbn; unfold join; cbn; now rewrite !append_nil_r.
Qed.

Lemma framed_column_name (i : Z) : framed (column_name this i).
Proof.
  unfold column_name.
  destruct (nth_error _ _); [apply framed_ret | apply framed_undefined].
Qed.

Ltac framed_steps :=
  repeat first
    [ apply framed_bind; [|intros ?]
    | apply framed_for_from; intros ? ?
    | apply framed_for_from
    | apply framed_data_at
    | apply framed_column_name
    | solve [auto with framed] ].

Lemma framed_put_border : framed (put_border this).
Proof. unfold put_border; framed_steps. Qed.

Lemma framed_print_table_header : framed (print_table_header this).
Proof.
  unfold print_table_header; cbv zeta; framed_steps; apply framed_put_border.
Qed.

Lemma framed_print_columns_header : framed (print_columns_header this).
Proof.
  unfold print_columns_header, for_upto, print_endline.
  framed_steps; apply framed_put_border.
Qed.

Lemma framed_print_row (start_index cell_count stride : Z) :
  framed (print_row this start_index cell_count stride).
Proof.
  unfold print_row, for_upto.
  apply framed_bind; [auto with framed | intros _].
  apply framed_bind; [|intros b; framed_steps].
  apply framed_for_from; intros j b; unfold print_row_cell.
  apply framed_bind; [apply framed_data_at | intros v].
  destruct (negb _); framed_steps.
Qed.

Lemma framed_print_content : framed (print_content this).
Proof.
  unfold print_content, for_upto, print_endline.
  apply framed_bind; [|intros _; apply framed_put_border].
  destruct (_data_arrangement this);
    apply framed_for_from; intros i _; apply framed_print_row.
Qed.

Lemma framed_render : framed (render this).
Proof.
  unfold render.
  apply framed_bind; [apply framed_print_table_header | intros _].
  apply framed_bind; [apply framed_print_columns_header | intros _].
  apply framed_print_content.
Qed.

End Rendering.

(** ** The two entry points *)

Section EntryPoints.

Context {T : Type} `{Printable T}.
Variable this : Plotter T.

Lemma get_table_normal (s s' : state) :
  render this s = Normal tt s' ->
  get_table this s
  = Normal (table s' ++ NL)
      (mkState (table s' ++ NL) (reads s') (cout s') (cerr s')).
Proof.
  intros E; unfold get_table, try_catch, bind; now rewrite E.
Qed.

Lemma get_table_thrown (s s' : state) (e : exn) :
  render this s = Thrown e s' ->
  get_table this s
  = Normal (table s' ++ NL)
      (mkState (table s' ++ NL) (reads s') (cout s')
               (cerr s' ++ get_table_diagnostic this e)).
Proof.
  intros E; unfold get_table, try_catch, bind; now rewrite E.
Qed.

Lemma print_table_normal (s s' : state) :
  render this s = Normal tt s' ->
  print_table this s
  = Normal tt (mkState (table s' ++ NL) (reads s')
                       (cout s' ++ (table s' ++ NL)) (cerr s')).
Proof.
  intros E; unfold print_table, try_catch, bind; now rewrite E.
Qed.

Lemma print_table_thrown (s s' : state) (e : exn) :
  render this s = Thrown e s' ->
  print_table this s
  = Normal tt
      (mkState (table s' ++ NL) (reads s')
               ((cout s' ++ print_table_diagnostic e) ++ (table s' ++ NL))
               (cerr s')).
Proof.
  intros E; unfold print_table, try_catch, bind; now rewrite E.
Qed.

Lemma get_table_undefined (s : state) :
  render this s = Undefined -> get_table this s = Undefined.
Proof.
  intros E; unfold get_table, try_catch, bind; now rewrite E.
Qed.

(** [get_table] is [render], the handler and the final newline, followed by
    the reading of the stream. *)
Lemma get_table_reads_stream (s : state) :
  get_table this s
  = match (try_catch (render this)
             (fun e => put_cerr (get_table_diagnostic this e)) ;; put NL) s with
    | Normal _ s' => Normal (table s') s'
    | Thrown e s' => Thrown e s'
    | Undefined => Undefined
    end.
Proof.
  unfold get_table, bind.
  destruct (try_catch _ _ s) as [[] s'|e s'|]; reflexivity.
Qed.

Lemma framed_get_table_body :
  framed (try_catch (render this)
            (fun e => put_cerr (get_table_diagnostic this e)) ;; put NL).
Proof.
  apply framed_bind; [|intros _; apply framed_put].
  apply framed_try_catch; [apply framed_render | intros e; apply framed_put_cerr].
Qed.

(** C9: the stream [_table] is not reset between calls: when a call of
    [get_table] on an object whose stream is empty (as after construction)
    returns [s1], the next call returns [s1] followed by one more copy of the
    table, that is [s1 ++ s1], which is then the content of the stream. *)
Theorem get_table_twice (s0 st1 : state) (s1 : string) :
  table s0 = "" ->
  get_table this s0 = Normal s1 st1 ->
  exists st2,
    get_table this st1 = Normal (s1 ++ s1) st2 /\ table st2 = s1 ++ s1.
Proof.
  intros E0 E1.
  rewrite get_table_reads_stream in E1 |- *.
  rewrite framed_get_table_body in E1 |- *.
  destruct ((_ ;; put NL) initial_state) as [[] d|e d|]; cbn [shift] in *;
    try discriminate.
  injection E1 as <- <-.
  exists (join (join s0 d) d).
  unfold join; cbn [table]; rewrite E0; cbn [append].
  split; reflexivity.
Qed.

End EntryPoints.

(** ** The title banner *)

Section Banner.

Context {T : Type} `{Printable T}.
Variable this : Plotter T.

Lemma put_border_eq (s : state) :
  put_border this s = Normal tt (emit (border this) [] s).
Proof.
  unfold put_border, border.
  erewrite bind_eq by apply put_eq.
  erewrite bind_eq
    by (apply std_string_eq; pose proof (to_uint_range (_table_width this - 2));
        unfold string_max_size; lia).
  erewrite bind_eq by apply put_eq.
  erewrite bind_eq by apply put_eq.
  rewrite put_eq, !emit_emit.
  cbn [app append]; rewrite ?append_assoc; reflexivity.
Qed.

(** C8: when the name fits ([table_width - name.length() - 2 >= 0]) the
    banner is a border, the line [|], [left] spaces, the name, [right]
    spaces, [|], and a border again, where [left] is
    [(table_width - name.length() - 2) / 2] rounded down and [right] is the
    rest, so that an odd space in excess goes to the right. *)
Theorem title_is_centered (s : state) :
  is_uint (_table_width this) ->
  0 <= _table_width this - strlen (_name this) - 2 ->
  let room := _table_width this - strlen (_name this) - 2 in
  let left := room / 2 in
  let right := room - left in
  print_table_header this s
  = Normal tt
      (emit (NL ++ border this ++ title_line this left right ++ border this)
            [] s) /\
  left <= right <= left + 1 /\
  strlen (title_line this left right) = _table_width this + 1.
Proof.
  intros Hu Hroom room left right.
  unfold is_uint, UINT_MOD in Hu.
  assert (Hl : 0 <= left <= room) by (subst left; split;
    [apply Z.div_pos; lia | apply Z.div_le_upper_bound; lia]).
  assert (Hr : 2 * left <= room < 2 * left + 2).
  { subst left. pose proof (Z.div_mod room 2 ltac:(lia)).
    pose proof (Z.mod_pos_bound room 2 ltac:(lia)). lia. }
  split; [|split].
  - unfold print_table_header; cbv zeta.
    fold room.
    rewrite (to_size_t_small room) by (subst room; unfold strlen in *; lia).
    fold left.
    rewrite (to_int_small left) by (subst room; unfold strlen in *; lia).
    rewrite (to_size_t_small left) by (subst room; unfold strlen in *; lia).
    fold right.
    rewrite (to_size_t_small right)
      by (subst right room; unfold strlen in *; lia).
    rewrite (to_int_small right) by (subst right room; unfold strlen in *; lia).
    rewrite (to_size_t_small right)
      by (subst right room; unfold strlen in *; lia).
    erewrite bind_eq by apply put_eq.
    erewrite bind_eq by apply put_border_eq.
    erewrite bind_eq by apply put_eq.
    erewrite bind_eq
      by (apply std_string_eq; unfold string_max_size;
          subst room; unfold strlen in *; lia).
    erewrite bind_eq by apply put_eq.
    erewrite bind_eq by apply put_eq.
    erewrite bind_eq
      by (apply std_string_eq; unfold string_max_size;
          subst right room; unfold strlen in *; lia).
    erewrite bind_eq by apply put_eq.
    erewrite bind_eq by apply put_eq.
    erewrite bind_eq by apply put_eq.
    rewrite put_border_eq, !emit_emit.
    unfold title_line; cbn [app append].
    rewrite ?append_assoc; reflexivity.
  - subst right; lia.
  - unfold title_line, strlen.
    rewrite !length_append, !length_replicate.
    cbn [String.length NL]; unfold strlen in *.
    subst right room; lia.
Qed.

End Banner.

(** The banner of the name [X] in a table of width 11. *)
Lemma title_is_centered_witness :
  print_table_header
    (mkPlotter (Some [1]) RowMajor ["A"] "X" 11 9 1 1 1 8) initial_state
  = Normal tt
      (mkState (NL ++ "+---------+" ++ NL ++ "|    X    |" ++ NL
                   ++ "+---------+" ++ NL) [] "" "").
Proof.
  pose proof (title_is_centered
                (mkPlotter (Some [1]) RowMajor ["A"] "X" 11 9 1 1 1 8)
                initial_state) as W.
  destruct W as (E & _).
  - unfold is_uint, UINT_MOD; cbn; lia.
  - cbn; lia.
  - rewrite E; vm_compute; reflexivity.
Defined.

(** ** Failures inside the rendering *)

Lemma quiet_ret {A} (a : A) : quiet (ret a).
Proof. intros s; cbn; auto. Qed.

Lemma quiet_throw {A} (e : exn) : quiet (@throw A e).
Proof. intros s; cbn; auto. Qed.

Lemma quiet_undefined {A} : quiet (@undefined A).
Proof. intros s; exact I. Qed.

Lemma quiet_put (text : string) : quiet (put text).
Proof. intros s; cbn; auto. Qed.

Lemma quiet_bind {A B} (m : M A) (k : A -> M B) :
  quiet m -> (forall a, quiet (k a)) -> quiet (bind m k).
Proof.
  intros Hm Hk s; unfold bind.
  specialize (Hm s).
  destruct (m s) as [a s1|e s1|]; auto.
  specialize (Hk a s1).
  destruct (k a s1) as [b s2|e s2|]; auto; split; destruct Hm, Hk; congruence.
Qed.

Lemma quiet_std_string (n : Z) (c : ascii) : quiet (std_string n c).
Proof.
  unfold std_string; destruct (string_max_size <? n);
    [apply quiet_throw | apply quiet_ret].
Qed.

Lemma quiet_for_from {S} (body : Z -> S -> M S) :
  (forall i acc, quiet (body i acc)) ->
  forall count i acc, quiet (for_from i count body acc).
Proof.
  intros Hb; induction count as [|k IH]; intros i acc; cbn [for_from].
  - apply quiet_ret.
  - apply quiet_bind; [apply Hb | intros a; apply IH].
Qed.

Section Failures.

Context {T : Type} `{Printable T}.
Variable this : Plotter T.

Lemma quiet_data_at (index : Z) : quiet (data_at this index).
Proof.
  intros s; unfold data_at.
  destruct (_data this) as [buffer|]; [|exact I].
  destruct (nth_error buffer (Z.to_nat index)); cbn; auto.
Qed.

Lemma quiet_column_name (i : Z) : quiet (column_name this i).
Proof.
  unfold column_name.
  destruct (nth_error _ _); [apply quiet_ret | apply quiet_undefined].
Qed.

Ltac quiet_steps :=
  repeat first
    [ apply quiet_bind; [|intros ?]
    | apply quiet_for_from; intros ? ?
    | apply quiet_data_at
    | apply quiet_column_name
    | apply quiet_put
    | apply quiet_ret
    | apply quiet_std_string ].

Lemma quiet_put_border : quiet (put_border this).
Proof. unfold put_border; quiet_steps. Qed.

Lemma quiet_print_row (start_index cell_count stride : Z) :
  quiet (print_row this start_index cell_count stride).
Proof.
  unfold print_row, for_upto.
  apply quiet_bind; [apply quiet_put | intros _].
  apply quiet_bind; [|intros b; quiet_steps].
  apply quiet_for_from; intros j b; unfold print_row_cell.
  apply quiet_bind; [apply quiet_data_at | intros v].
  destruct (negb _); quiet_steps.
Qed.

Lemma quiet_render : quiet (render this).
Proof.
  unfold render, print_table_header, print_columns_header, print_content,
    print_endline, for_upto; cbv zeta.
  apply quiet_bind; [quiet_steps; apply quiet_put_border | intros _].
  apply quiet_bind; [quiet_steps; apply quiet_put_border | intros _].
  apply quiet_bind; [|intros _; apply quiet_put_border].
  destruct (_data_arrangement this);
    apply quiet_for_from; intros i _; apply quiet_print_row.
Qed.

(** Neither entry point lets an exception of the rendering escape.  When
    the rendering throws with the stream at [text],
    [get_table] returns [text] and a newline, leaves standard output as it
    was and writes its diagnostic to [std::cerr]; [print_table] writes its
    diagnostic to [std::cout], followed there by [text] and a newline, and
    leaves [std::cerr] as it was.  When the rendering ends normally no
    diagnostic is written. *)
Theorem render_failures_are_caught (s : state) :
  (forall e s', get_table this s <> Thrown e s') /\
  (forall e s', print_table this s <> Thrown e s') /\
  (forall e s',
     render this s = Thrown e s' ->
     get_table this s
     = Normal (table s' ++ NL)
         (mkState (table s' ++ NL) (reads s') (cout s)
                  (cerr s ++ get_table_diagnostic this e)) /\
     print_table this s
     = Normal tt
         (mkState (table s' ++ NL) (reads s')
                  ((cout s ++ print_table_diagnostic e) ++ (table s' ++ NL))
                  (cerr s))) /\
  (forall s',
     render this s = Normal tt s' ->
     get_table this s
     = Normal (table s' ++ NL)
         (mkState (table s' ++ NL) (reads s') (cout s) (cerr s)) /\
     print_table this s
     = Normal tt
         (mkState (table s' ++ NL) (reads s')
                  (cout s ++ (table s' ++ NL)) (cerr s))).
Proof.
  pose proof (quiet_render s) as Q.
  split; [|split; [|split]].
  - intros e s'; unfold get_table, try_catch, bind.
    destruct (render this s) as [[] s1|e1 s1|]; discriminate.
  - intros e s'; unfold print_table, try_catch, bind.
    destruct (render this s) as [[] s1|e1 s1|]; discriminate.
  - intros e s' E; rewrite E in Q; destruct Q as [<- <-].
    split; [now apply get_table_thrown | now apply print_table_thrown].
  - intros s' E; rewrite E in Q; destruct Q as [<- <-].
    split; [now apply get_table_normal | now apply print_table_normal].
Qed.

End Failures.

(** A title longer than the table makes the rendering throw; the diagnostic
    of [print_table] is then part of standard output. *)
Lemma print_table_diagnostic_on_stdout :
  ~ stdout_receives_only_the_table Z.
Proof.
  intros C.
  specialize (C (mkPlotter (Some [1; 2; 3; 4]) RowMajor ["A"; "B"]
                   "A title too long" 13 5 4 2 2 8)
                initial_state).
  vm_compute in C.
  specialize (C _ eq_refl).
  discriminate C.
Qed.

(** C7, at a title longer than the table: the rendering throws
    [std::length_error] after the first border and the opening [|].  Both
    entry points return normally with the partial table and a newline in the
    stream; [get_table] writes its diagnostic to [std::cerr] and nothing to
    standard output, whereas [print_table] writes its diagnostic to standard
    output, where the table follows it, and nothing to [std::cerr]. *)
Theorem print_table_of_a_long_title :
  let partial := NL ++ "+-----------+" ++ NL ++ "|" ++ NL in
  exists p : Plotter Z,
    Plotter_ctor (Some [1; 2; 3; 4]) "A title too long" ["A"; "B"] 13 4 RowMajor
      = Constructed p /\
    render p initial_state
      = Thrown (std_exception "basic_string::_M_create")
          (mkState (NL ++ "+-----------+" ++ NL ++ "|") [] "" "") /\
    get_table p initial_state
      = Normal partial
          (mkState partial [] ""
             ("Error printing table: A title too long" ++ NL
              ++ "basic_string::_M_create" ++ NL)) /\
    print_table p initial_state
      = Normal tt
          (mkState partial []
             ("Error printing table: basic_string::_M_create" ++ partial) "").
Proof.
  eexists; split; [reflexivity|].
  split; [|split]; vm_compute; reflexivity.
Qed.

(** ** Rows *)

Lemma in_zrange (count : nat) (i k : Z) :
  In k (zrange i count) <-> i <= k < i + Z.of_nat count.
Proof.
  revert i; induction count as [|n IH]; intros i; cbn [zrange In].
  - lia.
  - rewrite IH; lia.
Qed.

Lemma length_zrange (count : nat) (i : Z) : List.length (zrange i count) = count.
Proof. revert i; induction count; intros; cbn; auto. Qed.

Lemma nth_error_zrange (count : nat) (i : Z) (k : nat) :
  (k < count)%nat -> nth_error (zrange i count) k = Some (i + Z.of_nat k).
Proof.
  revert i k; induction count as [|n IH]; intros i k Hk; [lia|].
  destruct k as [|k]; cbn [zrange nth_error].
  - f_equal; lia.
  - rewrite IH by lia; f_equal; lia.
Qed.

Section Rows.

Context {T : Type} `{Printable T}.
Variable this : Plotter T.
Variable buffer : list T.
Hypothesis data_is_buffer : _data this = Some buffer.

Lemma data_at_eq (index : Z) (s : state) :
  data_at this index s
  = match nth_error buffer (Z.to_nat index) with
    | Some value => Normal value (emit "" [index] s)
    | None => Undefined
    end.
Proof.
  unfold data_at, emit; rewrite data_is_buffer.
  destruct (nth_error _ _); [now rewrite append_nil_r | reflexivity].
Qed.

(** The loop of [print_row], from any turn on. *)
Lemma print_row_cells_spec (start_index stride : Z) (count : nat) :
  forall (j : Z) (acc : string) (s : state),
    let indices :=
      map (fun j => to_uint (start_index + to_uint (j * to_uint stride)))
          (zrange j count) in
    for_from j count (print_row_cell this start_index stride) acc s
    = match fetch buffer indices with
      | Some values =>
        Normal (acc ++ notes this j values) (emit (cells this values) indices s)
      | None => Undefined
      end.
Proof.
  induction count as [|n IH]; intros j acc s; cbv zeta;
    cbn [for_from zrange map fetch].
  - cbn [notes cells map concat_text]; unfold ret.
    now rewrite append_nil_r, emit_nil.
  - unfold bind at 1, print_row_cell at 1, bind at 1.
    rewrite data_at_eq.
    destruct (nth_error buffer _) as [v|]; [|reflexivity].
    assert (C : forall vs, cells this (v :: vs)
                           = cell_text this (shown this v) ++ "|" ++ cells this vs)
      by (intros vs; unfold cells, cell; cbn [map concat_text];
          now rewrite append_assoc).
    unfold shown, fits in C.
    destruct (col_width_is_sufficient this v (_column_width this)) eqn:F;
      cbn [negb];
      (erewrite bind_eq by apply put_eq);
      (erewrite bind_eq by apply put_eq);
      unfold ret; rewrite IH; cbv zeta;
      (destruct (fetch buffer _) as [vs|]; [|reflexivity]);
      rewrite C; cbn [notes]; unfold fits; rewrite F;
      rewrite !emit_emit; cbn [app append];
      rewrite ?append_assoc; reflexivity.
Qed.

(** A row: the opening [|], the cells, the annotations, a newline; and no
    defined behaviour when an index falls outside the array. *)
Lemma print_row_spec (start_index cell_count stride : Z) (s : state) :
  print_row this start_index cell_count stride s
  = match fetch buffer (row_indices start_index cell_count stride) with
    | Some values =>
      Normal tt (emit (row_text this values)
                      (row_indices start_index cell_count stride) s)
    | None => Undefined
    end.
Proof.
  unfold print_row, for_upto, row_indices, row_text.
  erewrite bind_eq by apply put_eq.
  unfold bind at 1; rewrite print_row_cells_spec; cbv zeta.
  destruct (fetch buffer _) as [values|]; [|reflexivity].
  erewrite bind_eq by apply put_eq.
  rewrite put_eq, !emit_emit.
  cbn [app append]; rewrite ?append_assoc, ?app_nil_r; reflexivity.
Qed.

(** The loop of [print_content], from any row on. *)
Lemma print_rows_spec (count : nat) :
  forall (i : Z) (s : state),
    for_from i count
      (fun i _ => print_row this (row_start this i) (_cols this)
                    (row_stride this)) tt s
    = match content_values this buffer (zrange i count) with
      | Some rows =>
        Normal tt (emit (concat_text (map (row_text this) rows))
                        (content_indices this (zrange i count)) s)
      | None => Undefined
      end.
Proof.
  induction count as [|n IH]; intros i s;
    cbn [for_from zrange content_values content_indices flat_map].
  - cbn; unfold ret; now rewrite emit_nil.
  - unfold bind at 1; rewrite print_row_spec.
    destruct (fetch buffer _) as [values|]; [|reflexivity].
    rewrite IH.
    destruct (content_values this buffer _) as [rows|]; [|reflexivity].
    cbn [map concat_text]; now rewrite emit_emit.
Qed.

Lemma print_content_spec (s : state) :
  print_content this s
  = match content_values this buffer (zrange 0 (Z.to_nat (_rows this))) with
    | Some rows =>
      Normal tt
        (emit (concat_text (map (row_text this) rows) ++ border this)
              (content_indices this (zrange 0 (Z.to_nat (_rows this)))) s)
    | None => Undefined
    end.
Proof.
  unfold print_content, print_endline, for_upto.
  assert (E : forall s,
    match _data_arrangement this with
    | RowMajor =>
      for_from 0 (Z.to_nat (_rows this))
        (fun i _ => print_row this (to_uint (i * _cols this)) (_cols this) 1) tt
    | ColumnMajor =>
      for_from 0 (Z.to_nat (_rows this))
        (fun i _ => print_row this i (_cols this) (to_int (_rows this))) tt
    end s
    = for_from 0 (Z.to_nat (_rows this))
        (fun i _ => print_row this (row_start this i) (_cols this)
                      (row_stride this)) tt s).
  { intros s0; unfold row_start, row_stride.
    destruct (_data_arrangement this); reflexivity. }
  unfold bind; rewrite E, print_rows_spec.
  destruct (content_values this buffer _) as [rows|]; [|reflexivity].
  rewrite put_border_eq, emit_emit, app_nil_r; reflexivity.
Qed.

End Rows.

(** ** Which element a cell shows *)

Lemma nth_error_flat_map_uniform {A B} (f : A -> list B) (n : nat) (l : list A) :
  (forall x, List.length (f x) = n) ->
  forall i j x,
    nth_error l i = Some x -> (j < n)%nat ->
    nth_error (flat_map f l) (i * n + j) = nth_error (f x) j.
Proof.
  intros Hn; induction l as [|a l IH]; intros i j x Hi Hj.
  - destruct i; discriminate.
  - destruct i as [|i]; cbn [nth_error flat_map] in *.
    + injection Hi as ->.
      rewrite nth_error_app1 by (rewrite Hn; lia); reflexivity.
    + rewrite nth_error_app2 by (rewrite Hn; cbn; lia).
      rewrite Hn.
      replace (S i * n + j - n)%nat with (i * n + j)%nat by (cbn; lia).
      now apply IH.
Qed.

Lemma fetch_nth {T} (buffer : list T) (indices : list Z) (values : list T) :
  fetch buffer indices = Some values ->
  List.length values = List.length indices /\
  forall j index,
    nth_error indices j = Some index ->
    exists v, nth_error values j = Some v /\
              nth_error buffer (Z.to_nat index) = Some v.
Proof.
  revert values; induction indices as [|i indices IH]; intros values E;
    cbn [fetch] in E.
  - injection E as <-; split; [reflexivity|].
    intros [|j] index Hj; discriminate.
  - destruct (nth_error buffer (Z.to_nat i)) as [v|] eqn:Ev; [|discriminate].
    destruct (fetch buffer indices) as [vs|]; [|discriminate].
    injection E as <-.
    destruct (IH vs eq_refl) as [Hl Hn].
    split; [cbn; now rewrite Hl|].
    intros [|j] index Hj; cbn [nth_error] in *.
    + injection Hj as <-; now exists v.
    + now apply Hn.
Qed.

Lemma fetch_defined {T} (buffer : list T) (indices : list Z) :
  Forall (fun index => 0 <= index < Z.of_nat (List.length buffer)) indices ->
  exists values, fetch buffer indices = Some values.
Proof.
  induction 1 as [|i indices Hi _ [vs IH]]; cbn [fetch].
  - now exists [].
  - destruct (nth_error buffer (Z.to_nat i)) as [v|] eqn:E.
    + rewrite IH; now exists (v :: vs).
    + apply nth_error_None in E; lia.
Qed.

Lemma fetch_undefined {T} (buffer : list T) (indices : list Z) (index : Z) :
  In index indices ->
  Z.of_nat (List.length buffer) <= index ->
  fetch buffer indices = None.
Proof.
  induction indices as [|i indices IH]; intros Hin Hout; [destruct Hin|].
  destruct Hin as [<-|Hin]; cbn [fetch].
  - assert (E : nth_error buffer (Z.to_nat i) = None)
      by (apply nth_error_None; lia).
    now rewrite E.
  - rewrite (IH Hin Hout); now destruct (nth_error buffer (Z.to_nat i)).
Qed.

Section Cells.

Context {T : Type} `{Printable T}.
Variable this : Plotter T.

Lemma length_row_indices (start_index cell_count stride : Z) :
  List.length (row_indices start_index cell_count stride) = Z.to_nat cell_count.
Proof. unfold row_indices; now rewrite length_map, length_zrange. Qed.

Lemma nth_error_row_indices (i : Z) (j : nat) :
  (j < Z.to_nat (_cols this))%nat ->
  nth_error (row_indices (row_start this i) (_cols this) (row_stride this)) j
  = Some (cell_index this i (Z.of_nat j)).
Proof.
  intros Hj; unfold row_indices, cell_index.
  rewrite nth_error_map, nth_error_zrange by exact Hj.
  reflexivity.
Qed.

(** The indices in the order of the reads: row after row, cell after
    cell. *)
Lemma nth_error_content_indices (i j : Z) :
  0 <= i < _rows this -> 0 <= j < _cols this ->
  nth_error (content_indices this (zrange 0 (Z.to_nat (_rows this))))
            (Z.to_nat (i * _cols this + j))
  = Some (cell_index this i j).
Proof.
  intros Hi Hj; unfold content_indices.
  replace (Z.to_nat (i * _cols this + j))
    with (Z.to_nat i * Z.to_nat (_cols this) + Z.to_nat j)%nat by nia.
  rewrite (nth_error_flat_map_uniform _ (Z.to_nat (_cols this)) _
             (fun x => length_row_indices _ _ _) _ _ i).
  - rewrite nth_error_row_indices by lia.
    now rewrite Z2Nat.id by lia.
  - rewrite nth_error_zrange by lia; f_equal; lia.
  - lia.
Qed.

(** The index of the code is the one of the specification, on
    [unsigned int]. *)
Lemma cell_index_spec (i j : Z) :
  cell_index this i j
  = to_uint (spec_index (_data_arrangement this) (_rows this) (_cols this) i j).
Proof.
  unfold cell_index, row_start, row_stride, spec_index.
  destruct (_data_arrangement this).
  - rewrite to_uint_to_int; unfold to_uint, UINT_MOD.
    now rewrite Zmult_mod_idemp_r, Zplus_mod_idemp_r.
  - unfold to_uint, UINT_MOD.
    change (1 mod 2 ^ 32) with 1; rewrite Z.mul_1_r.
    now rewrite <- Zplus_mod.
Qed.

Lemma cell_index_exact (i j : Z) :
  0 <= i < _rows this -> 0 <= j < _cols this ->
  _rows this * _cols this <= 2 ^ 32 ->
  cell_index this i j
  = spec_index (_data_arrangement this) (_rows this) (_cols this) i j.
Proof.
  intros Hi Hj Hg; rewrite cell_index_spec.
  apply to_uint_small; unfold spec_index.
  destruct (_data_arrangement this); nia.
Qed.

Lemma content_values_nth (buffer : list T) (rows : list Z)
    (values : list (list T)) :
  content_values this buffer rows = Some values ->
  List.length values = List.length rows /\
  forall k i,
    nth_error rows k = Some i ->
    exists vs,
      nth_error values k = Some vs /\
      fetch buffer (row_indices (row_start this i) (_cols this)
                      (row_stride this)) = Some vs.
Proof.
  revert values; induction rows as [|r rows IH]; intros values E;
    cbn [content_values] in E.
  - injection E as <-; split; [reflexivity|].
    intros [|k] i Hk; discriminate.
  - destruct (fetch buffer _) as [vs|] eqn:Ev; [|discriminate].
    destruct (content_values this buffer rows) as [vss|]; [|discriminate].
    injection E as <-.
    destruct (IH vss eq_refl) as [Hl Hn].
    split; [cbn; now rewrite Hl|].
    intros [|k] i Hk; cbn [nth_error] in *.
    + injection Hk as <-; now exists vs.
    + now apply Hn.
Qed.

End Cells.

(** ** Rows and cells of a constructed object *)

Section Geometry.

Context {T : Type} `{Printable T}.

(** For a size and a number of labels that fit [int], the number of rows is
    the quotient, and the grid does not exceed the size. *)
Lemma rows_at_construction
    (data : option (list T)) name column_names table_width size arrangement p :
  Plotter_ctor data name column_names table_width size arrangement
    = Constructed p ->
  0 <= size <= INT_MAX ->
  Z.of_nat (List.length column_names) <= INT_MAX ->
  _cols p = Z.of_nat (List.length column_names) /\
  0 < _cols p /\
  _rows p = size / _cols p /\
  0 <= _rows p /\
  _rows p * _cols p <= size.
Proof.
  intros E Hs Hn; unfold INT_MAX in *.
  destruct (ctor_constructed _ _ _ _ _ _ _ E) as (r & w & V & Hr & _ & ->).
  cbn [_cols _rows].
  apply validate_inputs_spec in V as (_ & V & _).
  assert (Hpos : 0 < Z.of_nat (List.length column_names))
    by (destruct column_names; [contradiction | cbn [List.length]; lia]).
  rewrite (to_uint_small (Z.of_nat _)) in * by lia.
  rewrite !to_int_small in Hr by lia.
  apply int_div_some in Hr as (_ & -> & _).
  rewrite Z.quot_div_nonneg by lia.
  set (n := Z.of_nat (List.length column_names)) in *.
  assert (0 <= size / n) by (apply Z.div_pos; lia).
  assert (n * (size / n) <= size) by (apply Z.mul_div_le; lia).
  assert (size / n <= size) by (apply Z.div_le_upper_bound; nia).
  rewrite to_uint_small by lia.
  repeat split; lia.
Qed.

(** C1: in a constructed object, cell [j] of content row [i] (with
    [i < rows] and [j < cols]) shows the element of the data array at index
    [i*cols + j] under [RowMajor] and [i + j*rows] under [ColumnMajor]; the
    index is computed on [unsigned int], where it is this very number
    whenever the grid [rows*cols] fits, as it does for every size and
    number of labels in the range of [int].  The elements are read row
    after row, cell after cell. *)
Theorem cell_reads_follow_arrangement
    (buffer : list T) name column_names table_width size arrangement p
    (s s' : state) :
  Plotter_ctor (Some buffer) name column_names table_width size arrangement
    = Constructed p ->
  print_content p s = Normal tt s' ->
  exists rows : list (list T),
    table s' = table s ++ concat_text (map (row_text p) rows) ++ border p /\
    reads s' = (reads s ++ content_indices p (zrange 0 (Z.to_nat (_rows p))))%list /\
    forall i j,
      0 <= i < _rows p -> 0 <= j < _cols p ->
      let index := to_uint (spec_index arrangement (_rows p) (_cols p) i j) in
      nth_error (content_indices p (zrange 0 (Z.to_nat (_rows p))))
                (Z.to_nat (i * _cols p + j)) = Some index /\
      (exists vs v,
         nth_error rows (Z.to_nat i) = Some vs /\
         nth_error vs (Z.to_nat j) = Some v /\
         nth_error buffer (Z.to_nat index) = Some v) /\
      (_rows p * _cols p <= 2 ^ 32 ->
       index = spec_index arrangement (_rows p) (_cols p) i j) /\
      (0 <= size <= INT_MAX ->
       Z.of_nat (List.length column_names) <= INT_MAX ->
       index = spec_index arrangement (_rows p) (_cols p) i j).
Proof.
  intros E R.
  assert (D : _data p = Some buffer /\ _data_arrangement p = arrangement)
    by (destruct (ctor_constructed _ _ _ _ _ _ _ E) as (r & w & _ & _ & _ & ->);
        split; reflexivity).
  destruct D as [D A].
  rewrite (print_content_spec p buffer D) in R.
  destruct (content_values p buffer _) as [rows|] eqn:V; [|discriminate].
  injection R as <-.
  exists rows; split; [reflexivity|]; split; [reflexivity|].
  intros i j Hi Hj index.
  assert (Ix : cell_index p i j = index)
    by (subst index; rewrite cell_index_spec, A; reflexivity).
  assert (Ex : _rows p * _cols p <= 2 ^ 32 ->
               index = spec_index arrangement (_rows p) (_cols p) i j).
  { intros G; rewrite <- Ix, <- A; now apply cell_index_exact. }
  split; [rewrite <- Ix; now apply nth_error_content_indices|].
  split; [|split; [exact Ex|]].
  - destruct (content_values_nth p buffer _ rows V) as [_ Hrow].
    destruct (Hrow (Z.to_nat i) i) as (vs & Hvs & F).
    { rewrite nth_error_zrange by lia; f_equal; lia. }
    destruct (fetch_nth buffer _ vs F) as [_ Hcell].
    destruct (Hcell (Z.to_nat j) (cell_index p i j)) as (v & Hv & Hb).
    { rewrite nth_error_row_indices by lia; now rewrite Z2Nat.id by lia. }
    exists vs, v; rewrite <- Ix; auto.
  - intros Hs Hn; apply Ex.
    destruct (rows_at_construction _ _ _ _ _ _ _ E Hs Hn) as (_ & _ & _ & _ & G).
    unfold INT_MAX in Hs; lia.
Qed.

End Geometry.

(** Six elements in two columns, read by columns. *)
Lemma cell_reads_follow_arrangement_witness :
  exists (p : Plotter Z) (s' : state),
    Plotter_ctor (Some [1; 2; 3; 4; 5; 6]) "T" ["A"; "B"] 13 6 ColumnMajor
      = Constructed p /\
    print_content p initial_state = Normal tt s' /\
    reads s' = [0; 3; 1; 4; 2; 5] /\
    nth_error (reads s') (Z.to_nat (1 * 2 + 1)) = Some (1 + 1 * 3).
Proof.
  exists (mkPlotter (Some [1; 2; 3; 4; 5; 6]) ColumnMajor ["A"; "B"] "T"
            13 5 6 2 3 8).
  destruct (print_content
              (mkPlotter (Some [1; 2; 3; 4; 5; 6]) ColumnMajor ["A"; "B"] "T"
                 13 5 6 2 3 8) initial_state) as [[] s'|e s'|] eqn:R;
    [|vm_compute in R; discriminate R ..].
  exists s'.
  destruct (cell_reads_follow_arrangement
              [1; 2; 3; 4; 5; 6] "T" ["A"; "B"] 13 6 ColumnMajor _
              initial_state s' eq_refl R) as (rows & _ & Hr & Hc).
  split; [reflexivity|].
  split; [reflexivity|].
  split; [rewrite Hr; reflexivity|].
  destruct (Hc 1 1) as (Hn & _); [cbn; lia | cbn; lia |].
  rewrite Hr; exact Hn.
Defined.

(** ** Sizes beyond the range of [int] *)

(** C2, at a size of 2^31 elements in two columns: [calculate_rows]
    receives the size as the [int] -2^31, and the quotient -2^30 is stored
    in the [unsigned int] member as 3221225472, not as 1073741824. *)
Theorem rows_of_2_pow_31_elements (buffer : list Z) :
  exists p,
    Plotter_ctor (Some buffer) "t" ["a"; "b"] 20 2147483648 RowMajor
      = Constructed p /\
    _cols p = 2 /\
    _rows p = 3221225472 /\
    2147483648 / _cols p = 1073741824.
Proof.
  eexists; split; [reflexivity|].
  cbn [_cols _rows]; repeat split; reflexivity.
Qed.

Section Bounds.

Context {T : Type} `{Printable T}.
Variable this : Plotter T.
Variable buffer : list T.

Lemma content_values_undefined (rows : list Z) (i : Z) :
  In i rows ->
  fetch buffer (row_indices (row_start this i) (_cols this) (row_stride this))
    = None ->
  content_values this buffer rows = None.
Proof.
  induction rows as [|r rows IH]; intros Hin F; [destruct Hin|].
  destruct Hin as [->|Hin]; cbn [content_values].
  - now rewrite F.
  - rewrite (IH Hin F).
    destruct (fetch buffer (row_indices (row_start this r) _ _)); reflexivity.
Qed.

Lemma content_values_defined (rows : list Z) :
  (forall i, In i rows ->
     exists vs, fetch buffer (row_indices (row_start this i) (_cols this)
                                (row_stride this)) = Some vs) ->
  exists values, content_values this buffer rows = Some values.
Proof.
  induction rows as [|r rows IH]; intros F; cbn [content_values].
  - now exists [].
  - destruct (F r (or_introl eq_refl)) as [vs ->].
    destruct IH as [vss ->]; [intros i Hi; apply F; now right|].
    now exists (vs :: vss).
Qed.

Lemma in_content_indices (index : Z) :
  In index (content_indices this (zrange 0 (Z.to_nat (_rows this)))) ->
  exists i j,
    0 <= i < _rows this /\ 0 <= j < _cols this /\ index = cell_index this i j.
Proof.
  unfold content_indices, row_indices; intros Hin.
  apply in_flat_map in Hin as (i & Hi & Hin).
  apply in_map_iff in Hin as (j & <- & Hj).
  apply in_zrange in Hi; apply in_zrange in Hj.
  exists i, j; repeat split; try lia.
Qed.

End Bounds.

Section Safety.

Context {T : Type} `{Printable T}.

(** For a size and a number of labels in the range of [int], and an array of
    at least [size] elements: the content is rendered, and every index read
    is below [rows * cols], hence below [size]. *)
Lemma content_reads_in_bounds
    (buffer : list T) name column_names table_width size arrangement p
    (s : state) :
  Plotter_ctor (Some buffer) name column_names table_width size arrangement
    = Constructed p ->
  0 <= size <= INT_MAX ->
  Z.of_nat (List.length column_names) <= INT_MAX ->
  size <= Z.of_nat (List.length buffer) ->
  exists s',
    print_content p s = Normal tt s' /\
    reads s' = (reads s ++ content_indices p (zrange 0 (Z.to_nat (_rows p))))%list /\
    Forall (fun index => 0 <= index <= _rows p * _cols p - 1 /\ index < size)
           (content_indices p (zrange 0 (Z.to_nat (_rows p)))).
Proof.
  intros E Hs Hn Hb.
  destruct (rows_at_construction _ _ _ _ _ _ _ E Hs Hn)
    as (_ & Hc & _ & Hr & G).
  assert (D : _data p = Some buffer)
    by (destruct (ctor_constructed _ _ _ _ _ _ _ E) as (r & w & _ & _ & _ & ->);
        reflexivity).
  assert (B : Forall (fun index => 0 <= index <= _rows p * _cols p - 1
                                   /\ index < size)
                (content_indices p (zrange 0 (Z.to_nat (_rows p))))).
  { apply Forall_forall; intros index Hin.
    apply in_content_indices in Hin as (i & j & Hi & Hj & ->).
    unfold INT_MAX in Hs.
    rewrite cell_index_exact by (try assumption; lia).
    unfold spec_index; destruct (_data_arrangement p); nia. }
  rewrite (print_content_spec p buffer D).
  destruct (content_values_defined p buffer (zrange 0 (Z.to_nat (_rows p))))
    as [values ->].
  - intros i Hi; apply fetch_defined.
    apply Forall_forall; intros index Hin.
    assert (Hc' : In index (content_indices p (zrange 0 (Z.to_nat (_rows p)))))
      by (unfold content_indices; apply in_flat_map; now exists i).
    pose proof (proj1 (Forall_forall _ _) B index Hc') as Q.
    cbv beta in Q; lia.
  - eexists; split; [reflexivity|]; split; [reflexivity | exact B].
Qed.

End Safety.

(** With 2^31 elements in two columns the content has 3221225472 rows, and
    row 2^30 starts at index 2^31, past the end of the array. *)
Lemma reads_past_the_end (buffer : list Z) :
  Z.of_nat (List.length buffer) = 2147483648 ->
  exists p,
    Plotter_ctor (Some buffer) "t" ["a"; "b"] 20 2147483648 RowMajor
      = Constructed p /\
    _rows p = 3221225472 /\
    cell_index p 1073741824 0 = 2147483648 /\
    get_table p initial_state = Undefined.
Proof.
  intros L.
  exists (mkPlotter (Some buffer) RowMajor ["a"; "b"] "t" 20 8 2147483648 2
            3221225472 8).
  split; [reflexivity|]; split; [reflexivity|]; split; [reflexivity|].
  apply get_table_undefined; unfold render, bind.
  destruct (print_table_header _ initial_state) as [[] s1|e s1|] eqn:Hh;
    [|vm_compute in Hh; discriminate Hh ..].
  destruct (print_columns_header _ s1) as [[] s2|e s2|] eqn:Hc;
    [|vm_compute in Hc; discriminate Hc ..].
  set (p := mkPlotter (Some buffer) RowMajor ["a"; "b"] "t" 20 8 2147483648 2
              3221225472 8).
  rewrite (print_content_spec p buffer eq_refl).
  rewrite (content_values_undefined p buffer _ 1073741824); [reflexivity | |].
  - apply in_zrange; unfold p; cbn [_rows]; lia.
  - apply (fetch_undefined buffer _ 2147483648); [now left | lia].
Qed.

(** C10, at a size of 2^31 elements in two columns: the array holds [size]
    elements, and the rendering reads the index [size]; the call has no
    defined behaviour. *)
Theorem get_table_reads_past_the_end :
  exists p,
    Plotter_ctor (Some (repeat 0 (Z.to_nat 2147483648))) "t" ["a"; "b"] 20
      2147483648 RowMajor = Constructed p /\
    _size p = 2147483648 /\
    cell_index p 1073741824 0 = _size p /\
    get_table p initial_state = Undefined.
Proof.
  destruct (reads_past_the_end (repeat 0 (Z.to_nat 2147483648)))
    as (p & E & _ & I & U).
  - rewrite repeat_length, Z2Nat.id; [reflexivity | discriminate].
  - exists p; split; [exact E|].
    assert (S : _size p = 2147483648)
      by (destruct (ctor_constructed _ _ _ _ _ _ _ E) as (r & w & _ & _ & _ & ->);
          reflexivity).
    rewrite S; auto.
Qed.

(** ** Values wider than their column *)

Section Overflow.

Context {T : Type} `{Printable T}.
Variable this : Plotter T.

(** C4, as the code has it: a row is the opening [|], its cells, its
    annotations and a newline.  A value whose text in fixed notation is
    longer than [_column_width] is shown as [T()], and the annotation
    "cell: j value: v", after two newlines and with the value in the plain
    notation of a stream, is added after the last [|] and before the newline
    that ends the row; any other value is shown as it is, with no
    annotation.  The text of a cell is right-aligned in a field of
    [_column_width] characters: the spaces come before it. *)
Theorem overflowing_values_are_annotated
    (buffer : list T) (start_index cell_count stride : Z) (values : list T)
    (s : state) :
  _data this = Some buffer ->
  fetch buffer (row_indices start_index cell_count stride) = Some values ->
  let precision := to_int (_precision this) in
  let width := _column_width this in
  let too_long (v : T) := width <? strlen (put_fixed precision v) in
  print_row this start_index cell_count stride s
  = Normal tt
      (emit ("|" ++ cells this values ++ notes this 0 values ++ NL)
            (row_indices start_index cell_count stride) s) /\
  (forall v rest, cells this (v :: rest) = cell this v ++ cells this rest) /\
  (forall v,
     cell this v
     = pad_to_width (to_int width)
         (put_fixed precision (if too_long v then T_default else v)) ++ "|") /\
  (forall j v rest,
     notes this j (v :: rest)
     = (if too_long v
        then NL ++ NL ++ "cell: " ++ dec j ++ " value: " ++ put_plain v
        else "") ++ notes this (j + 1) rest) /\
  (forall w text,
     pad_to_width w text = replicate (Z.to_nat (w - strlen text)) " " ++ text).
Proof.
  intros D F precision width too_long.
  assert (L : forall v, fits this v = negb (too_long v)).
  { intros v; unfold fits, col_width_is_sufficient, too_long, precision, width.
    now rewrite Z.leb_antisym. }
  split; [|split; [|split; [|split]]].
  - rewrite (print_row_spec this buffer D), F; reflexivity.
  - intros v rest; reflexivity.
  - intros v; unfold cell, shown, cell_text; rewrite L.
    fold precision; fold width.
    now destruct (too_long v).
  - intros j v rest; cbn [notes]; rewrite L.
    now destruct (too_long v).
  - reflexivity.
Qed.

End Overflow.

(** A row of two [int] in columns of five characters. *)
Lemma overflowing_values_are_annotated_witness :
  print_row (mkPlotter (Some [1; 234567]) RowMajor ["A"; "B"] "T" 13 5 2 2 1 8)
    0 2 1 initial_state
  = Normal tt
      (mkState ("|    1|    0|" ++ NL ++ NL ++ "cell: 1 value: 234567" ++ NL)
               [0; 1] "" "").
Proof.
  destruct (overflowing_values_are_annotated
              (mkPlotter (Some [1; 234567]) RowMajor ["A"; "B"] "T" 13 5 2 2 1 8)
              [1; 234567] 0 2 1 [1; 234567] initial_state eq_refl eq_refl)
    as (E & _).
  rewrite E; reflexivity.
Defined.

(** The text of [T()] comes after the spaces, not before them. *)
Lemma overflow_cell_is_left_padded : ~ overflow_cell_is_right_padded Z.
Proof.
  intros C.
  specialize (C (mkPlotter (Some [234567]) RowMajor ["A"] "T" 7 5 1 1 1 8)
                [234567] 0 234567 initial_state).
  vm_compute in C.
  specialize (C _ eq_refl eq_refl eq_refl eq_refl).
  discriminate C.
Qed.

(** C5, as the code has it: in a column of five characters the value
    12345.678, whose text in fixed notation with eight decimals is
    "12345.67800000", is shown as the default value, "0.00000000", and its
    annotation in cell [j] is "cell: j value: 12345.7": the annotation has
    the plain notation of a stream, six significant digits. *)
Theorem annotation_of_12345_678 (this : Plotter Double.double) (j : Z) :
  _column_width this = 5 ->
  _precision this = 8 ->
  put_fixed 8 d12345_678 = "12345.67800000" /\
  col_width_is_sufficient this d12345_678 (_column_width this) = false /\
  cell this d12345_678 = "0.00000000|" /\
  forall rest,
    notes this j (d12345_678 :: rest)
    = NL ++ NL ++ "cell: " ++ dec j ++ " value: 12345.7"
      ++ notes this (j + 1) rest.
Proof.
  intros W P.
  assert (F : col_width_is_sufficient this d12345_678 (_column_width this)
              = false)
    by (unfold col_width_is_sufficient; rewrite W, P; vm_compute; reflexivity).
  split; [vm_compute; reflexivity|].
  split; [exact F|].
  split.
  - unfold cell, shown, fits, cell_text; rewrite F, W, P.
    vm_compute; reflexivity.
  - intros rest; cbn [notes]; unfold fits; rewrite F.
    unfold too_long_note.
    change (put_plain d12345_678) with "12345.7".
    now rewrite !append_assoc.
Qed.

(** Two [double] in columns of five characters. *)
Lemma annotation_of_12345_678_witness :
  exists (p : Plotter Double.double) (text : string) (s' : state),
    Plotter_ctor (Some [d0_5; d12345_678]) "T" ["A"; "B"] 13 2 RowMajor
      = Constructed p /\
    get_table p initial_state = Normal text s' /\
    contains ("|0.00000000|0.00000000|" ++ NL ++ NL ++ "cell: 0 value: 0.5"
              ++ NL ++ NL ++ "cell: 1 value: 12345.7" ++ NL) text = true /\
    notes p 1 [d12345_678] = NL ++ NL ++ "cell: 1 value: 12345.7".
Proof.
  exists (mkPlotter (Some [d0_5; d12345_678]) RowMajor ["A"; "B"] "T" 13 5 2 2
            1 8).
  destruct (get_table
              (mkPlotter (Some [d0_5; d12345_678]) RowMajor ["A"; "B"] "T" 13 5
                 2 2 1 8) initial_state) as [text s'|e s'|] eqn:R;
    [|vm_compute in R; discriminate R ..].
  exists text, s'.
  split; [reflexivity|]; split; [reflexivity|].
  split.
  - vm_compute in R; injection R as <- _; vm_compute; reflexivity.
  - destruct (annotation_of_12345_678
                (mkPlotter (Some [d0_5; d12345_678]) RowMajor ["A"; "B"] "T" 13
                   5 2 2 1 8) 1 eq_refl eq_refl) as (_ & _ & _ & N).
    rewrite N; reflexivity.
Defined.

(** The annotation does not have the text in fixed notation. *)
Lemma annotation_is_not_in_fixed_notation :
  exists (p : Plotter Double.double) (text : string) (s' : state),
    Plotter_ctor (Some [d0_5; d12345_678]) "T" ["A"; "B"] 13 2 RowMajor
      = Constructed p /\
    _column_width p = 5 /\
    get_table p initial_state = Normal text s' /\
    contains "cell: 1 value: 12345.67800000" text = false /\
    contains "12345.67800000" text = false.
Proof.
  exists (mkPlotter (Some [d0_5; d12345_678]) RowMajor ["A"; "B"] "T" 13 5 2 2
            1 8).
  destruct (get_table
              (mkPlotter (Some [d0_5; d12345_678]) RowMajor ["A"; "B"] "T" 13 5
                 2 2 1 8) initial_state) as [text s'|e s'|] eqn:R;
    [|vm_compute in R; discriminate R ..].
  exists text, s'.
  split; [reflexivity|]; split; [reflexivity|]; split; [reflexivity|].
  vm_compute in R; injection R as <- _.
  split; vm_compute; reflexivity.
Qed.

(** The banner of the name [X] in a table of width 11 has four spaces on
    each side. *)
Lemma title_X_in_width_11 :
  exists s',
    print_table_header
      (mkPlotter (Some [1]) RowMajor ["A"] "X" 11 9 1 1 1 8) initial_state
    = Normal tt s' /\
    contains "|    X     |" (table s') = false /\
    contains "|    X    |" (table s') = true /\
    (11 - strlen "X" - 2) - (11 - strlen "X" - 2) / 2 <> 5.
Proof.
  eexists; split; [vm_compute; reflexivity|].
  repeat split; try (vm_compute; reflexivity).
  vm_compute; discriminate.
Qed.

(** Construction from four [int] and two labels. *)
Lemma construction_fails_iff_witness :
  exists p : Plotter Z,
    Plotter_ctor (Some [1; 2; 3; 4]) "X" ["A"; "B"] 13 4 RowMajor
      = Constructed p /\
    _cols p = 2.
Proof.
  destruct (proj2 (construction_fails_iff (Some [1; 2; 3; 4]) "X" ["A"; "B"]
                     13 4 RowMajor))
    as (p & E & _ & _ & _ & _ & _ & _ & C & _).
  - discriminate.
  - discriminate.
  - discriminate.
  - discriminate.
  - unfold geometry_fits_int, INT_MAX, INT_MIN; cbn; lia.
  - exists p; split; [exact E | exact C].
Defined.

(** Two calls on four [int] in two columns. *)
Lemma get_table_twice_witness :
  exists (s1 : string) (st1 st2 : state),
    get_table (mkPlotter (Some [1; 2; 3; 4]) RowMajor ["A"; "B"] "X" 13 5 4 2 2 8)
      initial_state = Normal s1 st1 /\
    get_table (mkPlotter (Some [1; 2; 3; 4]) RowMajor ["A"; "B"] "X" 13 5 4 2 2 8)
      st1 = Normal (s1 ++ s1) st2.
Proof.
  destruct (get_table
              (mkPlotter (Some [1; 2; 3; 4]) RowMajor ["A"; "B"] "X" 13 5 4 2 2
                 8) initial_state) as [s1 st1|e st1|] eqn:R;
    [|vm_compute in R; discriminate R ..].
  destruct (get_table_twice _ initial_state st1 s1 eq_refl R) as (st2 & E & _).
  exists s1, st1, st2; split; [reflexivity | exact E].
Defined.

(** ** The number of rows *)

Section RowCount.

Context {T : Type} `{Printable T}.

(** The content is one row text for each of the [_rows] rows, and a
    border. *)
Lemma content_row_count (this : Plotter T) (buffer : list T) (s s' : state) :
  _data this = Some buffer ->
  print_content this s = Normal tt s' ->
  exists rows : list (list T),
    List.length rows = Z.to_nat (_rows this) /\
    Forall (fun vs => List.length vs = Z.to_nat (_cols this)) rows /\
    table s' = table s ++ concat_text (map (row_text this) rows) ++ border this.
Proof.
  intros D R.
  rewrite (print_content_spec this buffer D) in R.
  destruct (content_values this buffer _) as [rows|] eqn:V; [|discriminate].
  injection R as <-.
  destruct (content_values_nth this buffer _ rows V) as [L N].
  exists rows; split; [now rewrite L, length_zrange|].
  split; [|reflexivity].
  apply Forall_forall; intros vs Hin.
  apply In_nth_error in Hin as [k Hk].
  assert (Hlt : (k < List.length (zrange 0 (Z.to_nat (_rows this))))%nat)
    by (rewrite <- L; apply nth_error_Some; congruence).
  destruct (nth_error (zrange 0 (Z.to_nat (_rows this))) k) as [i|] eqn:Hi;
    [|apply nth_error_None in Hi; lia].
  destruct (N k i Hi) as (vs' & Hvs & F).
  assert (vs' = vs) by congruence; subst vs'.
  destruct (fetch_nth buffer _ vs F) as [Lv _].
  now rewrite Lv, length_row_indices.
Qed.

End RowCount.

(** ** Examples *)

(** Ten elements in three columns: three rows, the last element is not
    shown. *)
Example rows_of_ten_in_three :
  exists (p : Plotter Z) (s' : state),
    Plotter_ctor (Some [1; 2; 3; 4; 5; 6; 7; 8; 9; 10]) "T" ["A"; "B"; "C"] 19
      10 RowMajor = Constructed p /\
    _rows p = 3 /\
    print_content p initial_state = Normal tt s' /\
    reads s' = [0; 1; 2; 3; 4; 5; 6; 7; 8].
Proof.
  eexists; eexists; split; [reflexivity|].
  split; [reflexivity|].
  split; vm_compute; reflexivity.
Qed.

(** Four [int] under the labels A and B in a table of width 13. *)
Example table_of_four :
  exists (p : Plotter Z) (s' : state),
    Plotter_ctor (Some [1; 2; 3; 4]) "X" ["A"; "B"] 13 4 RowMajor
      = Constructed p /\
    _rows p = 2 /\ _column_width p = 5 /\
    get_table p initial_state
    = Normal (NL ++ "+-----------+" ++ NL
                 ++ "|     X     |" ++ NL
                 ++ "+-----------+" ++ NL
                 ++ "|  A  |  B  |" ++ NL
                 ++ "+-----------+" ++ NL
                 ++ "|    1|    2|" ++ NL
                 ++ "|    3|    4|" ++ NL
                 ++ "+-----------+" ++ NL ++ NL) s'.
Proof.
  eexists; eexists; split; [reflexivity|].
  split; [reflexivity|]; split; [reflexivity|].
  vm_compute; reflexivity.
Qed.

(** The same six elements by rows and by columns: the first row is 1, 2 or
    1, 4. *)
Example first_row_by_rows_and_by_columns :
  print_row (mkPlotter (Some [1; 2; 3; 4; 5; 6]) RowMajor ["A"; "B"] "T"
               13 5 6 2 3 8) 0 2 1 initial_state
  = Normal tt (mkState ("|    1|    2|" ++ NL) [0; 1] "" "") /\
  print_row (mkPlotter (Some [1; 2; 3; 4; 5; 6]) ColumnMajor ["A"; "B"] "T"
               13 5 6 2 3 8) 0 2 3 initial_state
  = Normal tt (mkState ("|    1|    4|" ++ NL) [0; 3] "" "").
Proof. split; vm_compute; reflexivity. Qed.

(** The objects written out in the statements above are the ones the
    constructor returns. *)
Example objects_as_constructed :
  Plotter_ctor (Some [1]) "X" ["A"] 11 1 RowMajor
    = Constructed (mkPlotter (Some [1]) RowMajor ["A"] "X" 11 9 1 1 1 8) /\
  Plotter_ctor (Some [1; 2; 3; 4]) "X" ["A"; "B"] 13 4 RowMajor
    = Constructed
        (mkPlotter (Some [1; 2; 3; 4]) RowMajor ["A"; "B"] "X" 13 5 4 2 2 8) /\
  Plotter_ctor (Some [1; 2; 3; 4]) "A title too long" ["A"; "B"] 13 4 RowMajor
    = Constructed
        (mkPlotter (Some [1; 2; 3; 4]) RowMajor ["A"; "B"] "A title too long"
           13 5 4 2 2 8) /\
  Plotter_ctor (Some [1; 234567]) "T" ["A"; "B"] 13 2 RowMajor
    = Constructed
        (mkPlotter (Some [1; 234567]) RowMajor ["A"; "B"] "T" 13 5 2 2 1 8) /\
  Plotter_ctor (Some [234567]) "T" ["A"] 7 1 RowMajor
    = Constructed (mkPlotter (Some [234567]) RowMajor ["A"] "T" 7 5 1 1 1 8) /\
  Plotter_ctor (Some [1; 2; 3; 4; 5; 6]) "T" ["A"; "B"] 13 6 RowMajor
    = Constructed
        (mkPlotter (Some [1; 2; 3; 4; 5; 6]) RowMajor ["A"; "B"] "T" 13 5 6 2 3
           8) /\
  Plotter_ctor (Some [1; 2; 3; 4; 5; 6]) "T" ["A"; "B"] 13 6 ColumnMajor
    = Constructed
        (mkPlotter (Some [1; 2; 3; 4; 5; 6]) ColumnMajor ["A"; "B"] "T" 13 5 6 2
           3 8).
Proof. repeat split. Qed.

(** A table width of 2^31 with one label: [table_width - (cols + 1)] is
    [INT_MIN - 2] on [int], which C++ leaves undefined. *)
Example construction_with_signed_overflow :
  Plotter_ctor (Some [1]) "t" ["a"] 2147483648 1 RowMajor
  = UndefinedConstruction.
Proof. reflexivity. Qed.

(** ** Paddings *)

(** Half of a difference of two sizes, computed on [size_t] and converted to
    [int], is the half rounded down, also when the difference is
    negative. *)
Lemma half_on_size_t (d : Z) :
  - 2 ^ 32 <= d < 2 ^ 32 -> to_int (to_size_t d / 2) = d / 2.
Proof.
  intros Hd; unfold to_size_t, SIZE_MOD.
  assert (Hh : - 2 ^ 31 <= d / 2 < 2 ^ 31).
  { pose proof (Z.div_mod d 2 ltac:(lia)).
    pose proof (Z.mod_pos_bound d 2 ltac:(lia)). lia. }
  destruct (Z_lt_le_dec d 0) as [Hneg|Hpos].
  - rewrite <- (Z_mod_plus_full d 1 (2 ^ 64)), Z.mod_small by lia.
    replace (d + 1 * 2 ^ 64) with (d + 2 ^ 63 * 2) by lia.
    rewrite Z.div_add by lia.
    unfold to_int, UINT_MOD.
    replace (d / 2 + 2 ^ 63 + 2 ^ 31) with (d / 2 + 2 ^ 31 + 2 ^ 31 * 2 ^ 32)
      by lia.
    rewrite Z_mod_plus_full, Z.mod_small; lia.
  - rewrite Z.mod_small by lia.
    apply to_int_small; lia.
Qed.

(** The other half, computed the same way, is the rest. *)
Lemma rest_on_size_t (d l : Z) :
  - 2 ^ 31 <= d - l < 2 ^ 31 ->
  to_int (to_size_t (to_size_t d - to_size_t l)) = d - l.
Proof.
  intros Hd; unfold to_size_t, SIZE_MOD.
  rewrite <- Zminus_mod.
  unfold to_int, UINT_MOD.
  replace (2 ^ 64) with (2 ^ 32 * 2 ^ 32) by lia.
  rewrite Z.rem_mul_r by lia.
  replace ((d - l) mod 2 ^ 32 + 2 ^ 32 * ((d - l) / 2 ^ 32 mod 2 ^ 32) + 2 ^ 31)
    with ((d - l) mod 2 ^ 32 + 2 ^ 31 + ((d - l) / 2 ^ 32 mod 2 ^ 32) * 2 ^ 32)
    by lia.
  rewrite Z_mod_plus_full, Zplus_mod_idemp_l, Z.mod_small; lia.
Qed.

(** A negative [int] as the count of a [std::string]. *)
Lemma std_string_negative (n : Z) (c : ascii) (s : state) :
  - 2 ^ 31 <= n < 0 ->
  std_string (to_size_t n) c s = Thrown length_error s.
Proof.
  intros Hn; unfold std_string, to_size_t, SIZE_MOD, string_max_size.
  rewrite <- (Z_mod_plus_full n 1 (2 ^ 64)), Z.mod_small by lia.
  destruct (Z.ltb_spec (2 ^ 63 - 1) (n + 1 * 2 ^ 64)); [reflexivity | lia].
Qed.

Lemma std_string_fits (n : Z) (c : ascii) (s : state) :
  0 <= n < 2 ^ 32 ->
  std_string (to_size_t n) c s = Normal (replicate (Z.to_nat n) c) s.
Proof.
  intros Hn; rewrite to_size_t_small by lia.
  apply std_string_eq; unfold string_max_size; lia.
Qed.

(** ** A title or a label that does not fit *)

Section Unfit.

Context {T : Type} `{Printable T}.
Variable this : Plotter T.

(** X1: The banner of a name longer than [_table_width - 2] (and no longer than
    [INT_MAX]): the left padding is negative, and [std::string] throws after
    the first border and the opening [|] were written.  [get_table] then
    returns the stream with these two pieces and a newline; no label and no
    element of the data was looked at, and the diagnostic is on
    [std::cerr]. *)
Theorem title_too_long (s : state) :
  is_uint (_table_width this) ->
  _table_width this - 2 < strlen (_name this) <= INT_MAX ->
  let text := table s ++ NL ++ border this ++ "|" in
  print_table_header this s
  = Thrown length_error (mkState text (reads s) (cout s) (cerr s)) /\
  get_table this s
  = Normal (text ++ NL)
      (mkState (text ++ NL) (reads s) (cout s)
         (cerr s ++ get_table_diagnostic this length_error)).
Proof.
  intros Hu Hn text; unfold is_uint, UINT_MOD, INT_MAX in *.
  assert (E : print_table_header this s
              = Thrown length_error (mkState text (reads s) (cout s) (cerr s))).
  { unfold print_table_header; cbv zeta.
    rewrite half_on_size_t by lia.
    set (d := _table_width this - strlen (_name this) - 2).
    assert (Hh : - 2 ^ 31 <= d / 2 < 0).
    { pose proof (Z.div_mod d 2 ltac:(lia)).
      pose proof (Z.mod_pos_bound d 2 ltac:(lia)). subst d; lia. }
    erewrite bind_eq by apply put_eq.
    erewrite bind_eq by apply put_border_eq.
    erewrite bind_eq by apply put_eq.
    unfold bind; rewrite std_string_negative by exact Hh.
    rewrite !emit_emit; unfold emit, text; cbn [table reads cout cerr app].
    now rewrite app_nil_r. }
  split; [exact E|].
  assert (R : render this s
              = Thrown length_error (mkState text (reads s) (cout s) (cerr s)))
    by (unfold render, bind; now rewrite E).
  now rewrite (get_table_thrown this _ _ _ R).
Qed.

Lemma print_columns_header_eq :
  print_columns_header this
  = (put "|" ;;
     for_upto (_cols this) (columns_header_cell this) tt ;;
     put NL ;;
     print_endline this).
Proof. reflexivity. Qed.

Lemma column_name_eq (i : Z) (header : string) (s : state) :
  nth_error (_column_names this) (Z.to_nat i) = Some header ->
  column_name this i s = Normal header s.
Proof. unfold column_name; now intros ->. Qed.

Lemma columns_header_cell_fits (i : Z) (header : string) (s : state) :
  nth_error (_column_names this) (Z.to_nat i) = Some header ->
  0 <= _column_width this <= INT_MAX ->
  strlen header <= _column_width this ->
  columns_header_cell this i tt s
  = Normal tt (emit (header_cell this header) [] s).
Proof.
  intros Hh Hw Hf; unfold INT_MAX in Hw.
  assert (Hl : 0 <= strlen header) by (unfold strlen; lia).
  unfold columns_header_cell.
  erewrite bind_eq by (apply column_name_eq; exact Hh).
  cbv zeta.
  set (d := _column_width this - strlen header).
  assert (Hd : 0 <= d < 2 ^ 31) by (subst d; lia).
  assert (Hhalf : 0 <= d / 2 <= d).
  { pose proof (Z.div_mod d 2 ltac:(lia)).
    pose proof (Z.mod_pos_bound d 2 ltac:(lia)). lia. }
  rewrite half_on_size_t by lia.
  rewrite (rest_on_size_t d (d / 2)) by lia.
  erewrite bind_eq by (apply std_string_fits; lia).
  erewrite bind_eq by apply put_eq.
  erewrite bind_eq by apply put_eq.
  erewrite bind_eq by (apply std_string_fits; lia).
  erewrite bind_eq by apply put_eq.
  rewrite put_eq, !emit_emit.
  unfold header_cell; fold d; cbn [app append].
  rewrite ?append_assoc; reflexivity.
Qed.

Lemma columns_header_cell_too_long (i : Z) (header : string) (s : state) :
  nth_error (_column_names this) (Z.to_nat i) = Some header ->
  0 <= _column_width this ->
  _column_width this < strlen header <= INT_MAX ->
  columns_header_cell this i tt s = Thrown length_error s.
Proof.
  intros Hh Hw Hf; unfold INT_MAX in Hf.
  unfold columns_header_cell.
  erewrite bind_eq by (apply column_name_eq; exact Hh).
  cbv zeta.
  set (d := _column_width this - strlen header).
  assert (Hd : - 2 ^ 31 <= d < 0) by (subst d; lia).
  assert (Hhalf : - 2 ^ 31 <= d / 2 < 0).
  { pose proof (Z.div_mod d 2 ltac:(lia)).
    pose proof (Z.mod_pos_bound d 2 ltac:(lia)). lia. }
  rewrite half_on_size_t by lia.
  unfold bind; now rewrite std_string_negative by exact Hhalf.
Qed.

(** The loop over the labels from position [i] on: the labels that fit are
    written, and the first one that does not ends the loop. *)
Lemma columns_header_loop (fitting : list string) :
  forall (i : Z) (s : state) (rest : list string),
    0 <= i ->
    0 <= _column_width this <= INT_MAX ->
    (forall n h, nth_error (fitting ++ rest) n = Some h ->
                 nth_error (_column_names this) (Z.to_nat i + n) = Some h) ->
    Forall (fun h => strlen h <= _column_width this) fitting ->
    match rest with
    | [] => True
    | long :: _ => _column_width this < strlen long <= INT_MAX
    end ->
    for_from i (List.length (fitting ++ rest)) (columns_header_cell this) tt s
    = match rest with
      | [] => Normal tt (emit (header_cells this fitting) [] s)
      | _ :: _ => Thrown length_error (emit (header_cells this fitting) [] s)
      end.
Proof.
  induction fitting as [|h fitting IH]; intros i s rest Hi Hw Hn Hf Hr.
  - cbn [app header_cells map concat_text]; rewrite emit_nil.
    destruct rest as [|long rest]; [reflexivity|].
    cbn [List.length for_from]; unfold bind.
    rewrite (columns_header_cell_too_long i long); try tauto; try lia.
    specialize (Hn O long eq_refl); now rewrite Nat.add_0_r in Hn.
  - cbn [app List.length for_from].
    inversion Hf as [|h' l' Hh Hf']; subst.
    erewrite bind_eq.
    2:{ apply (columns_header_cell_fits i h); auto.
        specialize (Hn O h eq_refl); now rewrite Nat.add_0_r in Hn. }
    rewrite (IH (i + 1) _ rest); try assumption; try lia.
    + unfold header_cells; cbn [map concat_text].
      destruct rest; now rewrite emit_emit.
    + intros n h' Hn'.
      replace (Z.to_nat (i + 1) + n)%nat with (Z.to_nat i + S n)%nat by lia.
      now apply Hn.
Qed.

End Unfit.

(** ** The line of the labels *)

Section Labels.

Context {T : Type} `{Printable T}.
Variable this : Plotter T.

Lemma print_table_header_fits (s : state) :
  is_uint (_table_width this) ->
  0 <= _table_width this - strlen (_name this) - 2 ->
  print_table_header this s = Normal tt (emit (banner this) [] s).
Proof.
  intros Hu Hroom; unfold is_uint, UINT_MOD in Hu.
  assert (Hl : 0 <= strlen (_name this)) by (unfold strlen; lia).
  unfold print_table_header, banner; cbv zeta.
  set (d := _table_width this - strlen (_name this) - 2) in *.
  assert (Hhalf : 0 <= d / 2 <= d).
  { pose proof (Z.div_mod d 2 ltac:(lia)).
    pose proof (Z.mod_pos_bound d 2 ltac:(lia)). lia. }
  assert (Hrest : d - d / 2 <= d / 2 + 1).
  { pose proof (Z.div_mod d 2 ltac:(lia)).
    pose proof (Z.mod_pos_bound d 2 ltac:(lia)). lia. }
  rewrite half_on_size_t by lia.
  rewrite (rest_on_size_t d (d / 2)) by lia.
  erewrite bind_eq by apply put_eq.
  erewrite bind_eq by apply put_border_eq.
  erewrite bind_eq by apply put_eq.
  erewrite bind_eq by (apply std_string_fits; lia).
  erewrite bind_eq by apply put_eq.
  erewrite bind_eq by apply put_eq.
  erewrite bind_eq by (apply std_string_fits; lia).
  erewrite bind_eq by apply put_eq.
  erewrite bind_eq by apply put_eq.
  erewrite bind_eq by apply put_eq.
  rewrite put_border_eq, !emit_emit.
  unfold title_line; cbn [app append].
  rewrite ?append_assoc; reflexivity.
Qed.

(** The labels, of which the first that does not fit, if any, is the head of
    [rest]. *)
Lemma print_columns_header_spec (fitting rest : list string) (s : state) :
  _column_names this = (fitting ++ rest)%list ->
  _cols this = Z.of_nat (List.length (_column_names this)) ->
  0 <= _column_width this <= INT_MAX ->
  Forall (fun h => strlen h <= _column_width this) fitting ->
  match rest with
  | [] => True
  | long :: _ => _column_width this < strlen long <= INT_MAX
  end ->
  print_columns_header this s
  = match rest with
    | [] => Normal tt (emit (header_line this ++ border this) [] s)
    | _ :: _ =>
      Thrown length_error (emit ("|" ++ header_cells this fitting) [] s)
    end.
Proof.
  intros Hn Hc Hw Hf Hr.
  rewrite print_columns_header_eq; unfold for_upto.
  erewrite bind_eq by apply put_eq.
  rewrite Hc, Nat2Z.id, Hn.
  unfold bind at 1.
  rewrite (columns_header_loop this fitting 0 _ rest); try assumption; try lia.
  2:{ intros n h Hh; rewrite Hn; exact Hh. }
  destruct rest as [|long rest].
  - erewrite bind_eq by apply put_eq.
    unfold print_endline; rewrite put_border_eq, !emit_emit.
    unfold header_line; rewrite Hn, !app_nil_r; cbn [app append].
    rewrite ?append_assoc; reflexivity.
  - now rewrite emit_emit.
Qed.

Lemma strlen_header_cell (h : string) :
  0 <= _column_width this ->
  strlen h <= _column_width this ->
  strlen (header_cell this h) = _column_width this + 1.
Proof.
  intros Hw Hf; unfold header_cell, strlen in *; cbv zeta.
  rewrite !length_append, !length_replicate; cbn [String.length].
  set (d := _column_width this - Z.of_nat (String.length h)) in *.
  assert (Hhalf : 0 <= d / 2 <= d).
  { pose proof (Z.div_mod d 2 ltac:(lia)).
    pose proof (Z.mod_pos_bound d 2 ltac:(lia)). lia. }
  lia.
Qed.

Lemma strlen_header_cells (headers : list string) :
  0 <= _column_width this ->
  Forall (fun h => strlen h <= _column_width this) headers ->
  strlen (header_cells this headers)
  = Z.of_nat (List.length headers) * (_column_width this + 1).
Proof.
  intros Hw; induction 1 as [|h headers Hh _ IH];
    unfold header_cells in *; cbn [map concat_text List.length].
  - reflexivity.
  - unfold strlen in *; rewrite length_append, Nat2Z.inj_add.
    fold (strlen (header_cell this h)).
    rewrite strlen_header_cell, IH by assumption; lia.
Qed.

(** X2: The line of the labels, when every label fits its column: each label is
    centred in [_column_width] characters, the smaller half of the spaces
    before it, and followed by [|]; the line is followed by a border.  All
    cells have the same width. *)
Theorem labels_are_centered (s : state) :
  _cols this = Z.of_nat (List.length (_column_names this)) ->
  0 <= _column_width this <= INT_MAX ->
  Forall (fun h => strlen h <= _column_width this) (_column_names this) ->
  print_columns_header this s
  = Normal tt (emit (header_line this ++ border this) [] s) /\
  strlen (header_line this) = _cols this * (_column_width this + 1) + 2 /\
  forall h,
    In h (_column_names this) ->
    let room := _column_width this - strlen h in
    header_cell this h
    = replicate (Z.to_nat (room / 2)) " " ++ h
      ++ replicate (Z.to_nat (room - room / 2)) " " ++ "|" /\
    0 <= room / 2 <= room - room / 2 /\
    room - room / 2 <= room / 2 + 1.
Proof.
  intros Hc Hw Hf.
  split; [|split].
  - rewrite (print_columns_header_spec (_column_names this) [] s); auto.
    now rewrite app_nil_r.
  - unfold header_line, strlen.
    rewrite !length_append; cbn [String.length NL].
    pose proof (strlen_header_cells (_column_names this) (proj1 Hw) Hf) as L.
    unfold strlen in L; rewrite Hc; lia.
  - intros h Hin room; split; [reflexivity|].
    pose proof (proj1 (Forall_forall _ _) Hf h Hin) as Hh; cbv beta in Hh.
    subst room; set (d := _column_width this - strlen h) in *.
    pose proof (Z.div_mod d 2 ltac:(lia)).
    pose proof (Z.mod_pos_bound d 2 ltac:(lia)). lia.
Qed.

(** X3: A label longer than its column (and no longer than [INT_MAX]) ends the
    rendering: the banner, the opening [|] and the labels before it are in
    the stream, then [std::string] throws for the negative padding.  No row
    is rendered and no element of the data is read; [get_table] returns the
    text so far and a newline, with its diagnostic on [std::cerr]. *)
Theorem long_label_stops_the_table (fitting rest : list string) (long : string)
    (s : state) :
  _column_names this = (fitting ++ long :: rest)%list ->
  _cols this = Z.of_nat (List.length (_column_names this)) ->
  is_uint (_table_width this) ->
  0 <= _table_width this - strlen (_name this) - 2 ->
  0 <= _column_width this <= INT_MAX ->
  Forall (fun h => strlen h <= _column_width this) fitting ->
  _column_width this < strlen long <= INT_MAX ->
  let text := table s ++ banner this ++ "|" ++ header_cells this fitting in
  render this s
  = Thrown length_error (mkState text (reads s) (cout s) (cerr s)) /\
  get_table this s
  = Normal (text ++ NL)
      (mkState (text ++ NL) (reads s) (cout s)
         (cerr s ++ get_table_diagnostic this length_error)).
Proof.
  intros Hn Hc Hu Ht Hw Hf Hl text.
  assert (R : render this s
              = Thrown length_error (mkState text (reads s) (cout s) (cerr s))).
  { unfold render.
    erewrite bind_eq by (apply print_table_header_fits; assumption).
    unfold bind.
    rewrite (print_columns_header_spec fitting (long :: rest)); try assumption.
    rewrite emit_emit; unfold emit, text; cbn [table reads cout cerr app].
    now rewrite app_nil_r. }
  split; [exact R|].
  now rewrite (get_table_thrown this _ _ _ R).
Qed.

End Labels.

(** ** Widths *)

Section Widths.

Context {T : Type} `{Printable T}.

(** X4: The columns of a constructed object fit its table: for a table width of
    at least [cols + 1] (and at most [INT_MAX]) the column width is the
    quotient rounded down, and a row of [cols] cells with their [|] and the
    opening [|] is at most [table_width] characters wide; it is narrower by
    the remainder of the division, hence by less than [cols] characters, and
    as wide as the border exactly when the division is exact. *)
Theorem columns_fit_the_table
    (data : option (list T)) name column_names table_width size arrangement p :
  Plotter_ctor data name column_names table_width size arrangement
    = Constructed p ->
  Z.of_nat (List.length column_names) + 1 <= table_width <= INT_MAX ->
  let n := Z.of_nat (List.length column_names) in
  let row_width := n * (_column_width p + 1) + 1 in
  _column_width p = (table_width - (n + 1)) / n /\
  0 <= _column_width p < table_width /\
  row_width <= table_width < row_width + n /\
  table_width - row_width = (table_width - (n + 1)) mod n /\
  (row_width = table_width <-> (table_width - (n + 1)) mod n = 0).
Proof.
  intros E Hw n row_width; unfold INT_MAX in Hw.
  destruct (ctor_constructed _ _ _ _ _ _ _ E) as (r & w & V & _ & Hcw & ->).
  apply validate_inputs_spec in V as (_ & V & _).
  assert (Hpos : 0 < n)
    by (subst n; destruct column_names; [contradiction | cbn [List.length]; lia]).
  fold n in Hcw, Hw.
  rewrite (to_uint_small n), (to_int_small n), (to_int_small table_width)
    in Hcw by lia.
  apply calculate_column_width_some in Hcw as (_ & -> & _).
  subst row_width; cbn [_column_width].
  rewrite Z.quot_div_nonneg by lia.
  pose proof (Z.div_mod (table_width - (n + 1)) n ltac:(lia)) as D.
  pose proof (Z.mod_pos_bound (table_width - (n + 1)) n Hpos) as M.
  assert (Q : 0 <= (table_width - (n + 1)) / n) by (apply Z.div_pos; lia).
  assert (Q' : (table_width - (n + 1)) / n <= table_width - (n + 1))
    by (apply Z.div_le_upper_bound; nia).
  rewrite to_uint_small by lia.
  set (q := (table_width - (n + 1)) / n) in *.
  set (m := (table_width - (n + 1)) mod n) in *.
  repeat split; try nia.
Qed.

Variable this : Plotter T.

Lemma strlen_pad_to_width (w : Z) (text : string) :
  strlen text <= w -> strlen (pad_to_width w text) = w.
Proof.
  intros Hl; unfold pad_to_width, strlen in *.
  rewrite length_append, length_replicate; lia.
Qed.

Lemma strlen_cell (v : T) :
  0 <= _column_width this <= INT_MAX ->
  strlen (put_fixed (to_int (_precision this)) T_default) <= _column_width this ->
  strlen (cell this v) = _column_width this + 1.
Proof.
  intros Hw Hd; unfold INT_MAX in Hw.
  unfold cell, cell_text, strlen in *.
  rewrite length_append; cbn [String.length].
  rewrite to_int_small by lia.
  assert (Hs : strlen (put_fixed (to_int (_precision this)) (shown this v))
               <= _column_width this).
  { unfold shown, fits, col_width_is_sufficient.
    destruct (Z.leb_spec (strlen (put_fixed (to_int (_precision this)) v))
                         (_column_width this)); [assumption | exact Hd]. }
  pose proof (strlen_pad_to_width _ _ Hs) as L; unfold strlen in L; lia.
Qed.

Lemma strlen_cells (values : list T) :
  0 <= _column_width this <= INT_MAX ->
  strlen (put_fixed (to_int (_precision this)) T_default) <= _column_width this ->
  strlen (cells this values)
  = Z.of_nat (List.length values) * (_column_width this + 1).
Proof.
  intros Hw Hd; induction values as [|v values IH];
    unfold cells in *; cbn [map concat_text List.length].
  - reflexivity.
  - unfold strlen in *; rewrite length_append, Nat2Z.inj_add.
    fold (strlen (cell this v)).
    rewrite strlen_cell, IH by assumption; lia.
Qed.

Lemma notes_of_fitting (values : list T) (j : Z) :
  Forall (fun v => fits this v = true) values -> notes this j values = "".
Proof.
  intros F; revert j; induction F as [|v values Hv _ IH]; intros j;
    cbn [notes]; [reflexivity|].
  now rewrite Hv, IH.
Qed.

(** X5: The rows keep the columns aligned: when the text of [T()] fits the
    column, the line of a row, from the opening [|] to the [|] after the
    last cell, has [cell_count * (_column_width + 1) + 1] characters,
    whatever the values are; the annotations follow it, and there is none
    when every value fits. *)
Theorem rows_are_aligned (buffer : list T) (start_index cell_count stride : Z)
    (s s' : state) :
  _data this = Some buffer ->
  0 <= _column_width this <= INT_MAX ->
  strlen (put_fixed (to_int (_precision this)) T_default) <= _column_width this ->
  print_row this start_index cell_count stride s = Normal tt s' ->
  exists (values : list T) (line annotations : string),
    fetch buffer (row_indices start_index cell_count stride) = Some values /\
    table s' = table s ++ line ++ annotations ++ NL /\
    line = "|" ++ cells this values /\
    annotations = notes this 0 values /\
    strlen line = Z.of_nat (Z.to_nat cell_count) * (_column_width this + 1) + 1 /\
    (Forall (fun v => fits this v = true) values -> annotations = "").
Proof.
  intros D Hw Hd R.
  rewrite (print_row_spec this buffer D) in R.
  destruct (fetch buffer _) as [values|] eqn:F; [|discriminate].
  injection R as <-.
  exists values, ("|" ++ cells this values), (notes this 0 values).
  split; [reflexivity|].
  split; [unfold emit, row_text; cbn [table append]; now rewrite ?append_assoc|].
  split; [reflexivity|]; split; [reflexivity|].
  split; [|apply notes_of_fitting].
  destruct (fetch_nth buffer _ values F) as [L _].
  rewrite length_row_indices in L.
  pose proof (strlen_cells values Hw Hd) as C.
  unfold strlen in *; cbn [append String.length]; rewrite <- L; lia.
Qed.

End Widths.

(** ** Fewer elements than columns *)

Section Short.

Context {T : Type} `{Printable T}.

(** X6: With fewer elements than labels there is no row: [_rows] is zero, and
    the content is the closing border alone; no element is read. *)
Theorem fewer_elements_than_columns
    (buffer : list T) name column_names table_width size arrangement p
    (s : state) :
  Plotter_ctor (Some buffer) name column_names table_width size arrangement
    = Constructed p ->
  0 < size < Z.of_nat (List.length column_names) ->
  Z.of_nat (List.length column_names) <= INT_MAX ->
  _rows p = 0 /\
  print_content p s
  = Normal tt (mkState (table s ++ border p) (reads s) (cout s) (cerr s)).
Proof.
  intros E Hs Hn.
  destruct (rows_at_construction _ _ _ _ _ _ _ E) as (Hc & _ & Hr & _);
    [unfold INT_MAX in *; lia | exact Hn |].
  assert (R : _rows p = 0) by (rewrite Hr, Hc; apply Z.div_small; lia).
  split; [exact R|].
  assert (D : _data p = Some buffer)
    by (destruct (ctor_constructed _ _ _ _ _ _ _ E) as (r & w & _ & _ & _ & ->);
        reflexivity).
  rewrite (print_content_spec p buffer D), R.
  cbn [Z.to_nat zrange content_values content_indices flat_map map concat_text].
  unfold emit; cbn [append]; now rewrite app_nil_r.
Qed.

End Short.

(** ** The elements that are shown *)

Lemma zrange_app (m n : nat) (a : Z) :
  zrange a (m + n) = (zrange a m ++ zrange (a + Z.of_nat m) n)%list.
Proof.
  revert a; induction m as [|m IH]; intros a; cbn [zrange Nat.add app].
  - f_equal; lia.
  - rewrite IH; do 3 f_equal; lia.
Qed.

Lemma map_add_zrange (a b : Z) (n : nat) :
  map (fun j => a + j) (zrange b n) = zrange (a + b) n.
Proof.
  revert b; induction n as [|n IH]; intros b; cbn [zrange map];
    [reflexivity|].
  rewrite IH; do 2 f_equal; lia.
Qed.

Lemma NoDup_zrange (n : nat) (a : Z) : NoDup (zrange a n).
Proof.
  revert a; induction n as [|n IH]; intros a; cbn [zrange]; constructor.
  - rewrite in_zrange; lia.
  - apply IH.
Qed.

Lemma length_flat_map_rows {A B} (f : A -> list B) (n : nat) (l : list A) :
  (forall x, List.length (f x) = n) ->
  List.length (flat_map f l) = (List.length l * n)%nat.
Proof.
  intros Hn; induction l as [|a l IH]; cbn [flat_map List.length]; [reflexivity|].
  rewrite length_app, Hn, IH; lia.
Qed.

Section Shown.

Context {T : Type} `{Printable T}.
Variable this : Plotter T.

Hypothesis rows_nonneg : 0 <= _rows this.
Hypothesis cols_nonneg : 0 <= _cols this.
Hypothesis grid_fits : _rows this * _cols this <= 2 ^ 32.

Lemma row_indices_exact (i : Z) :
  0 <= i < _rows this ->
  row_indices (row_start this i) (_cols this) (row_stride this)
  = map (spec_index (_data_arrangement this) (_rows this) (_cols this) i)
        (zrange 0 (Z.to_nat (_cols this))).
Proof.
  intros Hi; unfold row_indices.
  apply map_ext_in; intros j Hj.
  apply in_zrange in Hj.
  apply (cell_index_exact this i j); lia.
Qed.

Lemma length_content_indices :
  List.length (content_indices this (zrange 0 (Z.to_nat (_rows this))))
  = Z.to_nat (_rows this * _cols this).
Proof.
  unfold content_indices.
  rewrite (length_flat_map_rows _ (Z.to_nat (_cols this)))
    by (intros x; apply length_row_indices).
  rewrite length_zrange; nia.
Qed.

(** Under [RowMajor], the rows from [i] on read consecutive indices. *)
Lemma row_major_indices (count : nat) :
  _data_arrangement this = RowMajor ->
  forall i,
    0 <= i -> i + Z.of_nat count <= _rows this ->
    content_indices this (zrange i count)
    = zrange (i * _cols this) (count * Z.to_nat (_cols this)).
Proof.
  intros A; induction count as [|k IH]; intros i Hi Hk;
    unfold content_indices in *; cbn [zrange flat_map]; [reflexivity|].
  rewrite IH by lia.
  rewrite row_indices_exact by lia.
  rewrite A; unfold spec_index.
  rewrite map_add_zrange.
  cbn [Nat.mul]; rewrite zrange_app.
  do 2 f_equal; nia.
Qed.

Lemma in_content_indices_iff (index : Z) :
  In index (content_indices this (zrange 0 (Z.to_nat (_rows this)))) <->
  exists i j,
    0 <= i < _rows this /\ 0 <= j < _cols this /\
    index = spec_index (_data_arrangement this) (_rows this) (_cols this) i j.
Proof.
  unfold content_indices; rewrite in_flat_map; split.
  - intros (i & Hi & Hin).
    apply in_zrange in Hi.
    rewrite row_indices_exact in Hin by lia.
    apply in_map_iff in Hin as (j & <- & Hj).
    apply in_zrange in Hj.
    exists i, j; repeat split; lia.
  - intros (i & j & Hi & Hj & ->).
    exists i; split; [apply in_zrange; lia|].
    rewrite row_indices_exact by lia.
    apply in_map_iff; exists j; split; [reflexivity | apply in_zrange; lia].
Qed.

(** Every index below [rows * cols] is read, in either arrangement. *)
Lemma grid_is_covered (index : Z) :
  0 <= index < _rows this * _cols this ->
  In index (content_indices this (zrange 0 (Z.to_nat (_rows this)))).
Proof.
  intros Hx; apply in_content_indices_iff.
  assert (Hr : 0 < _rows this) by nia.
  assert (Hc : 0 < _cols this) by nia.
  destruct (_data_arrangement this); unfold spec_index.
  - exists (index mod _rows this), (index / _rows this).
    pose proof (Z.div_mod index (_rows this) ltac:(lia)).
    pose proof (Z.mod_pos_bound index (_rows this) Hr).
    assert (0 <= index / _rows this) by (apply Z.div_pos; lia).
    assert (index / _rows this < _cols this)
      by (apply Z.div_lt_upper_bound; nia).
    repeat split; try lia.
  - exists (index / _cols this), (index mod _cols this).
    pose proof (Z.div_mod index (_cols this) ltac:(lia)).
    pose proof (Z.mod_pos_bound index (_cols this) Hc).
    assert (0 <= index / _cols this) by (apply Z.div_pos; lia).
    assert (index / _cols this < _rows this)
      by (apply Z.div_lt_upper_bound; nia).
    repeat split; try lia.
Qed.

Lemma content_indices_permutation :
  Permutation (zrange 0 (Z.to_nat (_rows this * _cols this)))
              (content_indices this (zrange 0 (Z.to_nat (_rows this)))).
Proof.
  apply NoDup_Permutation_bis.
  - apply NoDup_zrange.
  - rewrite length_content_indices, length_zrange; lia.
  - intros index Hin; apply in_zrange in Hin.
    apply grid_is_covered; lia.
Qed.

End Shown.

Section ShownOnce.

Context {T : Type} `{Printable T}.

Lemma content_reads
    (buffer : list T) name column_names table_width size arrangement p
    (s s' : state) :
  Plotter_ctor (Some buffer) name column_names table_width size arrangement
    = Constructed p ->
  print_content p s = Normal tt s' ->
  _data_arrangement p = arrangement /\
  reads s'
  = (reads s ++ content_indices p (zrange 0 (Z.to_nat (_rows p))))%list.
Proof.
  intros E R.
  assert (D : _data p = Some buffer /\ _data_arrangement p = arrangement)
    by (destruct (ctor_constructed _ _ _ _ _ _ _ E) as (r & w & _ & _ & _ & ->);
        split; reflexivity).
  destruct D as [D A]; split; [exact A|].
  rewrite (print_content_spec p buffer D) in R.
  destruct (content_values p buffer _); [|discriminate].
  now injection R as <-.
Qed.

(** X7: Under [RowMajor] the elements are read in the order of the array: the
    indices read are 0, 1, ..., [rows * cols - 1] (for a size and a number of
    labels in the range of [int]). *)
Theorem row_major_reads_in_order
    (buffer : list T) name column_names table_width size p (s s' : state) :
  Plotter_ctor (Some buffer) name column_names table_width size RowMajor
    = Constructed p ->
  0 <= size <= INT_MAX ->
  Z.of_nat (List.length column_names) <= INT_MAX ->
  print_content p s = Normal tt s' ->
  reads s' = (reads s ++ zrange 0 (Z.to_nat (_rows p * _cols p)))%list.
Proof.
  intros E Hs Hn R.
  destruct (rows_at_construction _ _ _ _ _ _ _ E Hs Hn)
    as (_ & Hc & _ & Hr & G).
  destruct (content_reads _ _ _ _ _ _ _ _ _ E R) as [A ->].
  unfold INT_MAX in Hs.
  rewrite (row_major_indices p) by (try assumption; lia).
  do 2 f_equal; nia.
Qed.

(** X8: In either arrangement every one of the first [rows * cols] elements is
    read exactly once and no other element is read: the indices read are a
    rearrangement of 0, ..., [rows * cols - 1].  The elements left out are
    the last [size mod cols] of the array. *)
Theorem each_element_is_shown_once
    (buffer : list T) name column_names table_width size arrangement p
    (s s' : state) :
  Plotter_ctor (Some buffer) name column_names table_width size arrangement
    = Constructed p ->
  0 <= size <= INT_MAX ->
  Z.of_nat (List.length column_names) <= INT_MAX ->
  print_content p s = Normal tt s' ->
  exists indices : list Z,
    reads s' = (reads s ++ indices)%list /\
    Permutation (zrange 0 (Z.to_nat (_rows p * _cols p))) indices /\
    NoDup indices /\
    (forall index, In index indices <-> 0 <= index < _rows p * _cols p) /\
    size - _rows p * _cols p = size mod _cols p.
Proof.
  intros E Hs Hn R.
  destruct (rows_at_construction _ _ _ _ _ _ _ E Hs Hn)
    as (_ & Hc & Hq & Hr & G).
  destruct (content_reads _ _ _ _ _ _ _ _ _ E R) as [_ ->].
  unfold INT_MAX in Hs.
  assert (P : Permutation (zrange 0 (Z.to_nat (_rows p * _cols p)))
                (content_indices p (zrange 0 (Z.to_nat (_rows p)))))
    by (apply content_indices_permutation; lia).
  eexists; split; [reflexivity|].
  split; [exact P|].
  split; [apply (Permutation_NoDup P), NoDup_zrange|].
  split.
  - intros index; rewrite <- (Permutation_in' eq_refl P), in_zrange; nia.
  - pose proof (Z.div_mod size (_cols p) ltac:(lia)); rewrite Hq; lia.
Qed.

End ShownOnce.

(** ** The complete table *)

Section Complete.

Context {T : Type} `{Printable T}.

Lemma column_width_bounds
    (data : option (list T)) name column_names table_width size arrangement p :
  Plotter_ctor data name column_names table_width size arrangement
    = Constructed p ->
  Z.of_nat (List.length column_names) + 1 <= table_width <= INT_MAX ->
  0 <= _column_width p < table_width.
Proof.
  intros E Hw; unfold INT_MAX in Hw.
  destruct (ctor_constructed _ _ _ _ _ _ _ E) as (r & w & V & _ & Hcw & ->).
  apply validate_inputs_spec in V as (_ & V & _).
  set (n := Z.of_nat (List.length column_names)) in *.
  assert (Hpos : 0 < n)
    by (subst n; destruct column_names; [contradiction | cbn [List.length]; lia]).
  rewrite (to_uint_small n), (to_int_small n), (to_int_small table_width)
    in Hcw by lia.
  apply calculate_column_width_some in Hcw as (_ & -> & _).
  cbn [_column_width].
  rewrite Z.quot_div_nonneg by lia.
  assert (Q : 0 <= (table_width - (n + 1)) / n) by (apply Z.div_pos; lia).
  assert (Q' : (table_width - (n + 1)) / n <= table_width - (n + 1))
    by (apply Z.div_le_upper_bound; nia).
  rewrite to_uint_small by lia.
  lia.
Qed.

(** X9: When the name fits the table, every label fits its column, and the array
    holds [size] elements (the sizes being in the range of [int]), nothing
    fails: [get_table] appends to the stream the banner, the line of the
    labels, a border, one line for each of the [rows] rows, a border and a
    newline, returns the stream, and writes no diagnostic. *)
Theorem complete_table
    (buffer : list T) name column_names table_width size arrangement p
    (s : state) :
  Plotter_ctor (Some buffer) name column_names table_width size arrangement
    = Constructed p ->
  Z.of_nat (List.length column_names) + 1 <= table_width <= INT_MAX ->
  strlen name + 2 <= table_width ->
  Forall (fun h => strlen h <= _column_width p) column_names ->
  0 <= size <= INT_MAX ->
  size <= Z.of_nat (List.length buffer) ->
  exists rows : list (list T),
    List.length rows = Z.to_nat (_rows p) /\
    let text :=
      table s ++ banner p ++ header_line p ++ border p
      ++ concat_text (map (row_text p) rows) ++ border p ++ NL in
    get_table p s
    = Normal text
        (mkState text
           (reads s ++ content_indices p (zrange 0 (Z.to_nat (_rows p))))
           (cout s) (cerr s)).
Proof.
  intros E Hw Ht Hf Hs Hb.
  assert (Hn : Z.of_nat (List.length column_names) <= INT_MAX) by lia.
  destruct (rows_at_construction _ _ _ _ _ _ _ E Hs Hn) as (Hc & _).
  pose proof (column_width_bounds _ _ _ _ _ _ _ E Hw) as Hcw.
  assert (F : _data p = Some buffer /\ _name p = name /\
              _column_names p = column_names /\ _table_width p = table_width)
    by (destruct (ctor_constructed _ _ _ _ _ _ _ E) as (r & w & _ & _ & _ & ->);
        repeat split; reflexivity).
  destruct F as (D & Fn & Fc & Fw).
  unfold INT_MAX in *.
  set (s1 := emit (banner p) [] s).
  set (s2 := emit (header_line p ++ border p) [] s1).
  assert (R1 : print_table_header p s = Normal tt s1)
    by (apply print_table_header_fits;
        [unfold is_uint, UINT_MOD | ]; rewrite Fw, ?Fn; lia).
  assert (R2 : print_columns_header p s1 = Normal tt s2).
  { rewrite (print_columns_header_spec p column_names [] s1);
      rewrite ?Fc, ?app_nil_r; unfold INT_MAX; auto; lia. }
  destruct (content_reads_in_bounds buffer _ _ _ _ _ _ s2 E) as (s3 & R3 & _);
    [unfold INT_MAX; lia | unfold INT_MAX; lia | exact Hb |].
  rewrite (print_content_spec p buffer D) in R3.
  destruct (content_values p buffer _) as [rows|] eqn:V; [|discriminate].
  injection R3 as <-.
  destruct (content_values_nth p buffer _ rows V) as [L _].
  exists rows; split; [now rewrite L, length_zrange|].
  cbv zeta.
  assert (R : render p s
              = Normal tt
                  (emit (concat_text (map (row_text p) rows) ++ border p)
                     (content_indices p (zrange 0 (Z.to_nat (_rows p)))) s2)).
  { unfold render.
    erewrite bind_eq by exact R1.
    erewrite bind_eq by exact R2.
    now rewrite (print_content_spec p buffer D), V. }
  rewrite (get_table_normal p _ _ R).
  unfold s2, s1; rewrite !emit_emit; unfold emit;
    cbn [table reads cout cerr app].
  rewrite ?append_assoc; reflexivity.
Qed.

End Complete.

(** ** Calls in a row *)

Lemma copies_snoc (k : nat) (text : string) :
  copies k text ++ text = copies (S k) text.
Proof.
  induction k as [|k IH]; cbn [copies append].
  - now rewrite append_nil_r.
  - now rewrite append_assoc, IH.
Qed.

Section Calls.

Context {T : Type} `{Printable T}.
Variable this : Plotter T.

(** What a call of [get_table] on a new object returns is what any call
    adds to the stream. *)
Lemma get_table_appends (s0 st1 : state) (s1 : string) :
  table s0 = "" ->
  get_table this s0 = Normal s1 st1 ->
  forall s, exists s',
    get_table this s = Normal (table s ++ s1) s' /\
    table s' = table s ++ s1.
Proof.
  intros E0 E1 s.
  rewrite get_table_reads_stream in E1 |- *.
  rewrite framed_get_table_body in E1 |- *.
  destruct ((_ ;; put NL) initial_state) as [[] d|e d|]; cbn [shift] in *;
    try discriminate.
  injection E1 as <- _.
  exists (join s d).
  unfold join; cbn [table]; rewrite E0; cbn [append].
  split; reflexivity.
Qed.

(** X10: The stream grows by one table with every call: the call number [k + 1]
    on a new object returns [k + 1] copies of what the first call
    returned. *)
Theorem get_table_after_k_calls (s0 st1 : state) (s1 : string) (k : nat) :
  table s0 = "" ->
  get_table this s0 = Normal s1 st1 ->
  exists st,
    get_table_calls this k s0 = Normal (copies (S k) s1) st /\
    table st = copies (S k) s1.
Proof.
  intros E0 E1.
  assert (G : forall k s m,
             table s = copies m s1 ->
             exists st,
               get_table_calls this k s = Normal (copies (m + S k) s1) st /\
               table st = copies (m + S k) s1).
  { clear k; induction k as [|k IH]; intros s m Hs; cbn [get_table_calls].
    - destruct (get_table_appends s0 st1 s1 E0 E1 s) as (s' & -> & Hs').
      exists s'; rewrite Hs' , Hs, copies_snoc.
      replace (m + 1)%nat with (S m) by lia; auto.
    - destruct (get_table_appends s0 st1 s1 E0 E1 s) as (s' & G1 & Hs').
      unfold bind; rewrite G1.
      rewrite Hs, copies_snoc in Hs'.
      destruct (IH s' (S m) Hs') as (st & -> & Ht).
      exists st; replace (m + S (S k))%nat with (S m + S k)%nat by lia; auto. }
  apply (G k s0 O); exact E0.
Qed.

(** [print_table] is the rendering, the handler and the final newline,
    followed by the printing of the stream. *)
Lemma print_table_prints_stream (s : state) :
  print_table this s
  = match (try_catch (render this)
             (fun e => put_cout (print_table_diagnostic e)) ;; put NL) s with
    | Normal _ s' =>
      Normal tt (mkState (table s') (reads s') (cout s' ++ table s') (cerr s'))
    | Thrown e s' => Thrown e s'
    | Undefined => Undefined
    end.
Proof.
  unfold print_table, bind.
  destruct (try_catch _ _ s) as [[] s'|e s'|]; reflexivity.
Qed.

Lemma framed_print_table_body :
  framed (try_catch (render this)
            (fun e => put_cout (print_table_diagnostic e)) ;; put NL).
Proof.
  apply framed_bind; [|intros _; apply framed_put].
  apply framed_try_catch; [apply framed_render | intros e; apply framed_put_cout].
Qed.

(** X11: [print_table] prints the whole stream, not the table it has just
    rendered: a second call on the same object prints the first table again
    and then the second, so that standard output holds the table three
    times after two calls (each call's diagnostic, if any, before what it
    prints). *)
Theorem print_table_twice (s0 st1 : state) :
  table s0 = "" ->
  print_table this s0 = Normal tt st1 ->
  exists (st2 : state) (diagnostic : string),
    cout st1 = cout s0 ++ diagnostic ++ table st1 /\
    print_table this st1 = Normal tt st2 /\
    table st2 = table st1 ++ table st1 /\
    cout st2 = cout st1 ++ diagnostic ++ table st1 ++ table st1.
Proof.
  intros E0 E1.
  rewrite print_table_prints_stream in E1 |- *.
  rewrite framed_print_table_body in E1 |- *.
  destruct ((_ ;; put NL) initial_state) as [[] d|e d|]; cbn [shift] in *;
    try discriminate.
  injection E1 as <-.
  eexists; exists (cout d); cbn [table reads cout cerr join].
  rewrite E0; cbn [append].
  repeat split; rewrite ?append_assoc; reflexivity.
Qed.

(** X12: Each entry point keeps to its streams: [get_table] never writes to
    standard output and [print_table] never writes to [std::cerr]; neither
    ends by an exception; what [get_table] returns is the content of the
    stream, which still begins with what it held before the call. *)
Theorem entry_points_keep_to_their_streams (s : state) :
  (forall e s', get_table this s <> Thrown e s') /\
  (forall e s', print_table this s <> Thrown e s') /\
  (forall text s',
     get_table this s = Normal text s' ->
     cout s' = cout s /\ text = table s' /\
     exists added, table s' = table s ++ added ++ NL) /\
  (forall s',
     print_table this s = Normal tt s' ->
     cerr s' = cerr s /\
     exists added diagnostic,
       table s' = table s ++ added ++ NL /\
       cout s' = cout s ++ diagnostic ++ table s').
Proof.
  pose proof (quiet_render this s) as Q.
  pose proof (framed_render this s) as F.
  split; [|split; [|split]].
  - intros e s'; unfold get_table, try_catch, bind.
    destruct (render this s) as [[] s1|e1 s1|]; discriminate.
  - intros e s'; unfold print_table, try_catch, bind.
    destruct (render this s) as [[] s1|e1 s1|]; discriminate.
  - intros text s' G.
    destruct (render this s) as [[] s1|e s1|] eqn:R.
    + rewrite (get_table_normal this _ _ R) in G; injection G as <- <-.
      cbn [table cout]; split; [tauto|]; split; [reflexivity|].
      destruct (render this initial_state) as [[] d|e d|]; cbn [shift] in F;
        try discriminate.
      injection F as ->; exists (table d); unfold join; cbn [table].
      now rewrite append_assoc.
    + rewrite (get_table_thrown this _ _ _ R) in G; injection G as <- <-.
      cbn [table cout]; split; [tauto|]; split; [reflexivity|].
      destruct (render this initial_state) as [[] d|e' d|]; cbn [shift] in F;
        try discriminate.
      injection F as _ ->; exists (table d); unfold join; cbn [table].
      now rewrite append_assoc.
    + rewrite (get_table_undefined this _ R) in G; discriminate.
  - intros s' P.
    destruct (render this s) as [[] s1|e s1|] eqn:R.
    + rewrite (print_table_normal this _ _ R) in P; injection P as <-.
      cbn [table cout cerr]; destruct Q as [Qo Qe].
      split; [exact Qe|]; rewrite Qo.
      destruct (render this initial_state) as [[] d|e d|]; cbn [shift] in F;
        try discriminate.
      injection F as ->; exists (table d), ""; unfold join; cbn [table append].
      now rewrite !append_assoc.
    + rewrite (print_table_thrown this _ _ _ R) in P; injection P as <-.
      cbn [table cout cerr]; destruct Q as [Qo Qe].
      split; [exact Qe|]; rewrite Qo.
      destruct (render this initial_state) as [[] d|e' d|]; cbn [shift] in F;
        try discriminate.
      injection F as _ ->; exists (table d), (print_table_diagnostic e).
      unfold join; cbn [table].
      now rewrite !append_assoc.
    + unfold print_table, try_catch, bind in P; rewrite R in P; discriminate.
Qed.

End Calls.

(** ** One row or one column *)

Lemma for_from_ext {S} (body body' : Z -> S -> M S) :
  (forall i acc s, body i acc s = body' i acc s) ->
  forall count i acc s,
    for_from i count body acc s = for_from i count body' acc s.
Proof.
  intros E; induction count as [|k IH]; intros i acc s; cbn [for_from];
    [reflexivity|].
  unfold bind; rewrite E.
  destruct (body' i acc s); auto.
Qed.

Section OneLine.

Context {T : Type} `{Printable T}.
Variable this : Plotter T.

Lemma print_row_of_one_cell (a b stride stride' : Z) (s : state) :
  to_uint a = to_uint b ->
  print_row this a 1 stride s = print_row this b 1 stride' s.
Proof.
  intros E; unfold print_row, for_upto.
  change (Z.to_nat 1) with 1%nat; cbn [for_from].
  unfold print_row_cell.
  rewrite !Z.mul_0_l.
  change (to_uint 0) with 0; rewrite !Z.add_0_r, E.
  reflexivity.
Qed.

(** X14: With a single column or a single row the arrangement does not matter:
    the rendering of the object as [RowMajor] and as [ColumnMajor] is the
    same, output and elements read. *)
Theorem arrangement_of_one_line (s : state) :
  _cols this = 1 \/ _rows this = 1 ->
  render (with_arrangement this RowMajor) s
  = render (with_arrangement this ColumnMajor) s /\
  get_table (with_arrangement this RowMajor) s
  = get_table (with_arrangement this ColumnMajor) s.
Proof.
  intros L.
  assert (C : forall s',
             print_content (with_arrangement this RowMajor) s'
             = print_content (with_arrangement this ColumnMajor) s').
  { intros s'; unfold print_content, with_arrangement, for_upto;
      cbn [_data_arrangement _rows _cols].
    unfold bind.
    match goal with
    | |- match ?a with _ => _ end = match ?b with _ => _ end =>
      assert (E : a = b); [|now rewrite E]
    end.
    destruct L as [L|L]; rewrite L.
    - apply for_from_ext; intros i _ s''.
      apply (print_row_of_one_cell (to_uint (i * 1)) i).
      rewrite Z.mul_1_r; unfold to_uint, UINT_MOD; apply Z.mod_mod; lia.
    - reflexivity. }
  assert (R : render (with_arrangement this RowMajor) s
              = render (with_arrangement this ColumnMajor) s).
  { unfold render, bind.
    change (print_table_header (with_arrangement this RowMajor))
      with (print_table_header (with_arrangement this ColumnMajor)).
    destruct (print_table_header _ s) as [[] s1|e s1|]; try reflexivity.
    change (print_columns_header (with_arrangement this RowMajor))
      with (print_columns_header (with_arrangement this ColumnMajor)).
    destruct (print_columns_header _ s1) as [[] s2|e s2|]; try reflexivity.
    apply C. }
  split; [exact R|].
  unfold get_table, try_catch, bind; rewrite R; reflexivity.
Qed.

End OneLine.

(** ** Columns too narrow for any [double] *)

Lemma strlen_dec_pos (z : Z) : 1 <= strlen (dec z).
Proof.
  unfold strlen, dec, NilZero.string_of_int.
  destruct (Z.to_int z) as [d|d]; destruct d; cbn; lia.
Qed.

Lemma strlen_dec_width (w n : Z) : w <= strlen (Double.dec_width w n).
Proof.
  unfold Double.dec_width, strlen.
  rewrite length_append, length_replicate; lia.
Qed.

Lemma strlen_fixed (p : Z) (d : Double.double) :
  0 < p -> p + 2 <= strlen (Double.fixed p d).
Proof.
  intros Hp; unfold Double.fixed, Double.positional.
  destruct (Z.leb_spec p 0); [lia|].
  pose proof (strlen_dec_pos (Double.scaled d p / 10 ^ p)) as A.
  pose proof (strlen_dec_width p (Double.scaled d p mod 10 ^ p)) as B.
  unfold strlen in *; rewrite !length_append; cbn [String.length]; lia.
Qed.


(** ** The width of the borders *)

Section Borders.

Context {T : Type} `{Printable T}.
Variable this : Plotter T.

(** X15: A border is [+], [_table_width - 2] dashes, [+] and a newline, the
    subtraction being on [unsigned int]: for a table width of at least 2 the
    line has [_table_width] characters, and for the width 1, which the
    constructor accepts, the count wraps around to 4294967295 dashes. *)
Theorem border_width (s : state) :
  is_uint (_table_width this) ->
  print_endline this s
  = Normal tt (mkState (table s ++ border this) (reads s) (cout s) (cerr s)) /\
  (2 <= _table_width this -> strlen (border this) = _table_width this + 1) /\
  (_table_width this = 1 -> strlen (border this) = 4294967295 + 3).
Proof.
  intros Hu; unfold is_uint, UINT_MOD in Hu.
  split; [|split].
  - unfold print_endline; rewrite put_border_eq.
    unfold emit; now rewrite app_nil_r.
  - intros Hw; unfold border, strlen.
    rewrite !length_append, length_replicate; cbn [String.length NL].
    rewrite to_uint_small by lia; lia.
  - intros Hw; unfold border, strlen.
    rewrite !length_append, length_replicate; cbn [String.length NL].
    rewrite Hw; change (to_uint (1 - 2)) with 4294967295; lia.
Qed.

End Borders.

(** ** The two entry points agree *)

Lemma append_eq_self (a b : string) : a ++ b = a -> b = "".
Proof.
  induction a as [|c a IH]; cbn [append]; [auto|].
  intros E; injection E as E; auto.
Qed.

Section Agree.

Context {T : Type} `{Printable T}.
Variable this : Plotter T.

(** X16: [print_table] and [get_table] render the same text: what [get_table]
    would return from a state is what [print_table], called from that
    state, leaves in the stream and prints.  [print_table] prints its
    diagnostic before it exactly when [get_table] writes one to
    [std::cerr]. *)
Theorem print_table_prints_what_get_table_returns (s s1 : state)
    (text : string) :
  get_table this s = Normal text s1 ->
  exists (s2 : state) (diagnostic : string),
    print_table this s = Normal tt s2 /\
    table s2 = text /\
    reads s2 = reads s1 /\
    cout s2 = cout s ++ diagnostic ++ text /\
    (diagnostic = "" <-> cerr s1 = cerr s).
Proof.
  intros G.
  pose proof (quiet_render this s) as Q.
  destruct (render this s) as [[] s'|e s'|] eqn:R.
  - rewrite (get_table_normal this _ _ R) in G; injection G as <- <-.
    rewrite (print_table_normal this _ _ R).
    destruct Q as [Qo Qe].
    eexists; exists ""; cbn [table reads cout cerr append]; rewrite Qo.
    repeat split; auto.
  - rewrite (get_table_thrown this _ _ _ R) in G; injection G as <- <-.
    rewrite (print_table_thrown this _ _ _ R).
    destruct Q as [Qo Qe].
    eexists; exists (print_table_diagnostic e); cbn [table reads cout cerr].
    rewrite Qo, Qe, append_assoc.
    repeat split; auto.
    + intros E; destruct e; discriminate E.
    + intros E; apply append_eq_self in E; destruct e; discriminate E.
  - rewrite (get_table_undefined this _ R) in G; discriminate.
Qed.

End Agree.


(** ** Instances *)

(** A title of sixteen characters in a table of width 13. *)
Lemma title_too_long_witness :
  print_table_header
    (mkPlotter (Some [1; 2; 3; 4]) RowMajor ["A"; "B"] "A title too long"
       13 5 4 2 2 8) initial_state
  = Thrown length_error
      (mkState (NL ++ "+-----------+" ++ NL ++ "|") [] "" "").
Proof.
  destruct (title_too_long
              (mkPlotter (Some [1; 2; 3; 4]) RowMajor ["A"; "B"]
                 "A title too long" 13 5 4 2 2 8) initial_state) as [E _].
  - unfold is_uint, UINT_MOD; cbn; lia.
  - unfold INT_MAX; cbn; lia.
  - rewrite E; reflexivity.
Defined.

(** Two labels of one and two characters in columns of five. *)
Lemma labels_are_centered_witness :
  print_columns_header
    (mkPlotter (Some [1; 2; 3; 4]) RowMajor ["A"; "BC"] "X" 13 5 4 2 2 8)
    initial_state
  = Normal tt
      (mkState ("|  A  | BC  |" ++ NL ++ "+-----------+" ++ NL) [] "" "").
Proof.
  destruct (labels_are_centered
              (mkPlotter (Some [1; 2; 3; 4]) RowMajor ["A"; "BC"] "X" 13 5 4 2
                 2 8) initial_state) as [E _].
  - reflexivity.
  - unfold INT_MAX; cbn; lia.
  - repeat constructor; cbn; lia.
  - rewrite E; reflexivity.
Defined.

(** The second of three labels is longer than its column of three
    characters. *)
Lemma long_label_stops_the_table_witness :
  get_table
    (mkPlotter (Some [1; 2; 3]) RowMajor ["A"; "Label"; "C"] "X" 13 3 3 3 1 8)
    initial_state
  = Normal (NL ++ "+-----------+" ++ NL ++ "|     X     |" ++ NL
               ++ "+-----------+" ++ NL ++ "| A |" ++ NL)
      (mkState (NL ++ "+-----------+" ++ NL ++ "|     X     |" ++ NL
                   ++ "+-----------+" ++ NL ++ "| A |" ++ NL)
         [] ""
         ("Error printing table: X" ++ NL ++ "basic_string::_M_create" ++ NL)).
Proof.
  destruct (long_label_stops_the_table
              (mkPlotter (Some [1; 2; 3]) RowMajor ["A"; "Label"; "C"] "X" 13 3
                 3 3 1 8) ["A"] ["C"] "Label" initial_state) as [_ E].
  - reflexivity.
  - reflexivity.
  - unfold is_uint, UINT_MOD; cbn; lia.
  - cbn; lia.
  - unfold INT_MAX; cbn; lia.
  - repeat constructor; cbn; lia.
  - unfold INT_MAX; cbn; lia.
  - rewrite E; reflexivity.
Defined.

(** Two columns in a table of width 14: columns of five characters, and
    rows one character narrower than the border. *)
Lemma columns_fit_the_table_witness :
  exists p : Plotter Z,
    Plotter_ctor (Some [1; 2; 3; 4]) "X" ["A"; "B"] 14 4 RowMajor
      = Constructed p /\
    _column_width p = 5 /\
    14 - (2 * (_column_width p + 1) + 1) = 1.
Proof.
  exists (mkPlotter (Some [1; 2; 3; 4]) RowMajor ["A"; "B"] "X" 14 5 4 2 2 8).
  destruct (columns_fit_the_table
              (Some [1; 2; 3; 4]) "X" ["A"; "B"] 14 4 RowMajor
              (mkPlotter (Some [1; 2; 3; 4]) RowMajor ["A"; "B"] "X" 14 5 4 2 2 8)
              eq_refl) as (_ & _ & _ & S & _).
  - unfold INT_MAX; cbn; lia.
  - split; [reflexivity|]; split; [reflexivity | exact S].
Defined.

(** A row of two [int], of which one does not fit. *)
Lemma rows_are_aligned_witness :
  exists s' line annotations,
    print_row
      (mkPlotter (Some [1; 234567]) RowMajor ["A"; "B"] "T" 13 5 2 2 1 8)
      0 2 1 initial_state = Normal tt s' /\
    table s' = line ++ annotations ++ NL /\
    strlen line = 13.
Proof.
  destruct (print_row
              (mkPlotter (Some [1; 234567]) RowMajor ["A"; "B"] "T" 13 5 2 2 1
                 8) 0 2 1 initial_state) as [[] s'|e s'|] eqn:R;
    [|vm_compute in R; discriminate R ..].
  destruct (rows_are_aligned
              (mkPlotter (Some [1; 234567]) RowMajor ["A"; "B"] "T" 13 5 2 2 1
                 8) [1; 234567] 0 2 1 initial_state s' eq_refl)
    as (values & line & annotations & _ & Ht & _ & _ & Hl & _).
  - unfold INT_MAX; cbn; lia.
  - cbn; lia.
  - exact R.
  - exists s', line, annotations; split; [reflexivity|].
    split; [exact Ht | exact Hl].
Defined.

(** One element under two labels. *)
Lemma fewer_elements_than_columns_witness :
  print_content (mkPlotter (Some [7]) RowMajor ["A"; "B"] "X" 13 5 1 2 0 8)
    initial_state
  = Normal tt (mkState ("+-----------+" ++ NL) [] "" "").
Proof.
  destruct (fewer_elements_than_columns
              [7] "X" ["A"; "B"] 13 1 RowMajor
              (mkPlotter (Some [7]) RowMajor ["A"; "B"] "X" 13 5 1 2 0 8)
              initial_state eq_refl) as [_ E].
  - cbn; lia.
  - unfold INT_MAX; cbn; lia.
  - rewrite E; reflexivity.
Defined.

(** Seven elements in two columns by rows: the first six are read in
    order. *)
Lemma row_major_reads_in_order_witness :
  exists s',
    print_content
      (mkPlotter (Some [1; 2; 3; 4; 5; 6; 7]) RowMajor ["A"; "B"] "X" 13 5 7 2
         3 8) initial_state = Normal tt s' /\
    reads s' = [0; 1; 2; 3; 4; 5].
Proof.
  destruct (print_content
              (mkPlotter (Some [1; 2; 3; 4; 5; 6; 7]) RowMajor ["A"; "B"] "X" 13
                 5 7 2 3 8) initial_state) as [[] s'|e s'|] eqn:R;
    [|vm_compute in R; discriminate R ..].
  exists s'; split; [reflexivity|].
  rewrite (row_major_reads_in_order
             [1; 2; 3; 4; 5; 6; 7] "X" ["A"; "B"] 13 7 _ initial_state s'
             eq_refl); [reflexivity | | | exact R];
    unfold INT_MAX; cbn; lia.
Defined.

(** Seven elements in two columns by columns: the first six are read once
    each. *)
Lemma each_element_is_shown_once_witness :
  exists s',
    print_content
      (mkPlotter (Some [1; 2; 3; 4; 5; 6; 7]) ColumnMajor ["A"; "B"] "X" 13 5 7
         2 3 8) initial_state = Normal tt s' /\
    NoDup (reads s') /\
    Permutation [0; 1; 2; 3; 4; 5] (reads s').
Proof.
  destruct (print_content
              (mkPlotter (Some [1; 2; 3; 4; 5; 6; 7]) ColumnMajor ["A"; "B"] "X"
                 13 5 7 2 3 8) initial_state) as [[] s'|e s'|] eqn:R;
    [|vm_compute in R; discriminate R ..].
  exists s'; split; [reflexivity|].
  destruct (each_element_is_shown_once
              [1; 2; 3; 4; 5; 6; 7] "X" ["A"; "B"] 13 7 ColumnMajor _
              initial_state s' eq_refl) as (indices & Hr & P & N & _);
    [unfold INT_MAX; cbn; lia | unfold INT_MAX; cbn; lia | exact R |].
  rewrite Hr; cbn [reads initial_state app].
  split; [exact N | exact P].
Defined.

(** Four [int] in a table of width 13. *)
Lemma complete_table_witness :
  exists rows : list (list Z),
    get_table
      (mkPlotter (Some [1; 2; 3; 4]) RowMajor ["A"; "B"] "X" 13 5 4 2 2 8)
      initial_state
    = Normal (NL ++ "+-----------+" ++ NL ++ "|     X     |" ++ NL
                 ++ "+-----------+" ++ NL ++ "|  A  |  B  |" ++ NL
                 ++ "+-----------+" ++ NL
                 ++ concat_text
                      (map (row_text
                              (mkPlotter (Some [1; 2; 3; 4]) RowMajor
                                 ["A"; "B"] "X" 13 5 4 2 2 8)) rows)
                 ++ "+-----------+" ++ NL ++ NL)
        (mkState (NL ++ "+-----------+" ++ NL ++ "|     X     |" ++ NL
                     ++ "+-----------+" ++ NL ++ "|  A  |  B  |" ++ NL
                     ++ "+-----------+" ++ NL
                     ++ concat_text
                          (map (row_text
                                  (mkPlotter (Some [1; 2; 3; 4]) RowMajor
                                     ["A"; "B"] "X" 13 5 4 2 2 8)) rows)
                     ++ "+-----------+" ++ NL ++ NL)
           [0; 1; 2; 3] "" "") /\
    List.length rows = 2%nat.
Proof.
  destruct (complete_table
              [1; 2; 3; 4] "X" ["A"; "B"] 13 4 RowMajor
              (mkPlotter (Some [1; 2; 3; 4]) RowMajor ["A"; "B"] "X" 13 5 4 2 2
                 8) initial_state eq_refl) as (rows & L & E).
  - unfold INT_MAX; cbn; lia.
  - cbn; lia.
  - repeat constructor; cbn; lia.
  - unfold INT_MAX; lia.
  - cbn; lia.
  - exists rows; split; [|exact L].
    rewrite E; reflexivity.
Defined.

(** Three calls of [get_table] in a row. *)
Lemma get_table_after_k_calls_witness :
  exists (s1 : string) (st1 st : state),
    get_table (mkPlotter (Some [1; 2; 3; 4]) RowMajor ["A"; "B"] "X" 13 5 4 2 2 8)
      initial_state = Normal s1 st1 /\
    get_table_calls
      (mkPlotter (Some [1; 2; 3; 4]) RowMajor ["A"; "B"] "X" 13 5 4 2 2 8) 2
      initial_state = Normal (s1 ++ s1 ++ s1) st.
Proof.
  destruct (get_table
              (mkPlotter (Some [1; 2; 3; 4]) RowMajor ["A"; "B"] "X" 13 5 4 2 2
                 8) initial_state) as [s1 st1|e st1|] eqn:R;
    [|vm_compute in R; discriminate R ..].
  destruct (get_table_after_k_calls _ initial_state st1 s1 2 eq_refl R)
    as (st & E & _).
  exists s1, st1, st; split; [reflexivity|].
  rewrite E; cbn [copies]; now rewrite append_nil_r.
Defined.

(** Two calls of [print_table] in a row. *)
Lemma print_table_twice_witness :
  exists st1 st2 : state,
    print_table
      (mkPlotter (Some [1; 2; 3; 4]) RowMajor ["A"; "B"] "X" 13 5 4 2 2 8)
      initial_state = Normal tt st1 /\
    print_table
      (mkPlotter (Some [1; 2; 3; 4]) RowMajor ["A"; "B"] "X" 13 5 4 2 2 8)
      st1 = Normal tt st2 /\
    cout st1 = table st1 /\
    cout st2 = table st1 ++ table st1 ++ table st1.
Proof.
  destruct (print_table
              (mkPlotter (Some [1; 2; 3; 4]) RowMajor ["A"; "B"] "X" 13 5 4 2 2
                 8) initial_state) as [[] st1|e st1|] eqn:R;
    [|vm_compute in R; discriminate R ..].
  destruct (print_table_twice _ initial_state st1 eq_refl R)
    as (st2 & diagnostic & _ & E & _ & _).
  exists st1, st2; split; [reflexivity|]; split; [exact E|].
  vm_compute in R; injection R as <-.
  vm_compute in E; injection E as <-.
  split; reflexivity.
Defined.


(** Three elements in one column. *)
Lemma arrangement_of_one_line_witness :
  get_table (mkPlotter (Some [1; 2; 3]) RowMajor ["A"] "X" 11 9 3 1 3 8)
    initial_state
  = get_table (mkPlotter (Some [1; 2; 3]) ColumnMajor ["A"] "X" 11 9 3 1 3 8)
      initial_state.
Proof.
  destruct (arrangement_of_one_line
              (mkPlotter (Some [1; 2; 3]) RowMajor ["A"] "X" 11 9 3 1 3 8)
              initial_state (or_introl eq_refl)) as [_ E].
  exact E.
Defined.

(** The border of a table of width 13. *)
Lemma border_width_witness :
  border (mkPlotter (Some [1; 2; 3; 4]) RowMajor ["A"; "B"] "X" 13 5 4 2 2 8)
  = "+-----------+" ++ NL /\
  strlen
    (border (mkPlotter (Some [1; 2; 3; 4]) RowMajor ["A"; "B"] "X" 13 5 4 2 2 8))
  = 13 + 1.
Proof.
  destruct (border_width
              (mkPlotter (Some [1; 2; 3; 4]) RowMajor ["A"; "B"] "X" 13 5 4 2 2
                 8) initial_state) as (_ & W & _).
  - unfold is_uint, UINT_MOD; cbn; lia.
  - split; [reflexivity|].
    apply W; cbn; lia.
Defined.

(** The two entry points on a title that is too long. *)
Lemma print_table_prints_what_get_table_returns_witness :
  exists (text : string) (s1 s2 : state),
    get_table
      (mkPlotter (Some [1; 2; 3; 4]) RowMajor ["A"; "B"] "A title too long"
         13 5 4 2 2 8) initial_state = Normal text s1 /\
    print_table
      (mkPlotter (Some [1; 2; 3; 4]) RowMajor ["A"; "B"] "A title too long"
         13 5 4 2 2 8) initial_state = Normal tt s2 /\
    table s2 = text.
Proof.
  destruct (get_table
              (mkPlotter (Some [1; 2; 3; 4]) RowMajor ["A"; "B"]
                 "A title too long" 13 5 4 2 2 8) initial_state)
    as [text s1|e s1|] eqn:R; [|vm_compute in R; discriminate R ..].
  destruct (print_table_prints_what_get_table_returns _ initial_state s1 text R)
    as (s2 & diagnostic & P & Ht & _).
  exists text, s1, s2; split; [reflexivity|]; split; [exact P | exact Ht].
Defined.

(** ** A table no wider than the number of its columns *)

Section Narrow.

Context {T : Type} `{Printable T}.

(** X17: When the table width is at most the number of labels, the quotient
    [(table_width - (cols + 1)) / cols] is truncated towards zero: the column
    width is 0, except for the table width 1, where it is -1 and is stored
    as 4294967295.  With a column width of 0 a label of at least one
    character does not fit: if the name fits the table, [get_table] returns
    the banner and the opening [|] of the line of the labels, and no row. *)
Theorem table_no_wider_than_its_columns
    (data : option (list T)) name column_names table_width size arrangement p :
  Plotter_ctor data name column_names table_width size arrangement
    = Constructed p ->
  1 <= table_width <= Z.of_nat (List.length column_names) ->
  Z.of_nat (List.length column_names) < INT_MAX ->
  _column_width p = (if table_width =? 1 then 4294967295 else 0) /\
  (2 <= table_width ->
   strlen name + 2 <= table_width ->
   forall first rest s,
     column_names = first :: rest ->
     0 < strlen first <= INT_MAX ->
     get_table p s
     = Normal (table s ++ banner p ++ "|" ++ NL)
         (mkState (table s ++ banner p ++ "|" ++ NL) (reads s) (cout s)
            (cerr s ++ get_table_diagnostic p length_error))).
Proof.
  intros E Hw Hn; unfold INT_MAX in Hn.
  destruct (ctor_constructed _ _ _ _ _ _ _ E) as (r & w & V & _ & Hcw & ->).
  set (n := Z.of_nat (List.length column_names)) in *.
  rewrite (to_uint_small n), (to_int_small n), (to_int_small table_width)
    in Hcw by lia.
  apply calculate_column_width_some in Hcw as (_ & -> & _).
  cbn [_column_width].
  assert (W : to_uint (Z.quot (table_width - (n + 1)) n)
              = if table_width =? 1 then 4294967295 else 0).
  { destruct (Z.eqb_spec table_width 1) as [->|Hne].
    - replace (1 - (n + 1)) with (- n) by lia.
      rewrite Z.quot_opp_l, Z.quot_same by lia; reflexivity.
    - replace (table_width - (n + 1)) with (- (n + 1 - table_width)) by lia.
      rewrite Z.quot_opp_l, Z.quot_small by lia; reflexivity. }
  split; [exact W|].
  intros Hw2 Hname first rest s Hnames Hfirst.
  destruct (Z.eqb_spec table_width 1) as [?|_]; [lia|].
  set (p := mkPlotter data arrangement column_names name table_width
              (to_uint (Z.quot (table_width - (n + 1)) n)) size (to_uint n)
              (to_uint r) 8).
  assert (R : render p s
              = Thrown length_error
                  (mkState (table s ++ banner p ++ "|") (reads s) (cout s)
                     (cerr s))).
  { unfold render.
    erewrite bind_eq.
    2:{ apply print_table_header_fits; unfold p; cbn [_table_width _name];
        [unfold is_uint, UINT_MOD | ]; lia. }
    unfold bind.
    rewrite (print_columns_header_spec p [] (first :: rest));
      unfold p; cbn [_column_names _cols _column_width]; rewrite ?W;
      try (unfold INT_MAX; lia); auto.
    - unfold header_cells; cbn [map concat_text].
      rewrite emit_emit; unfold emit; cbn [table reads cout cerr app].
      now rewrite app_nil_r, append_nil_r.
    - rewrite to_uint_small by lia; subst n; now rewrite Hnames. }
  rewrite (get_table_thrown p _ _ _ R); cbn [table reads cout cerr].
  now rewrite !append_assoc.
Qed.

End Narrow.

(** Three labels in a table of width 3. *)
Lemma table_no_wider_than_its_columns_witness :
  exists p : Plotter Z,
    Plotter_ctor (Some [1; 2; 3]) "X" ["A"; "B"; "C"] 3 3 RowMajor
      = Constructed p /\
    _column_width p = 0 /\
    get_table p initial_state
    = Normal (NL ++ "+-+" ++ NL ++ "|X|" ++ NL ++ "+-+" ++ NL ++ "|" ++ NL)
        (mkState (NL ++ "+-+" ++ NL ++ "|X|" ++ NL ++ "+-+" ++ NL ++ "|" ++ NL)
           [] ""
           ("Error printing table: X" ++ NL ++ "basic_string::_M_create" ++ NL)).
Proof.
  exists (mkPlotter (Some [1; 2; 3]) RowMajor ["A"; "B"; "C"] "X" 3 0 3 3 1 8).
  destruct (table_no_wider_than_its_columns
              (Some [1; 2; 3]) "X" ["A"; "B"; "C"] 3 3 RowMajor
              (mkPlotter (Some [1; 2; 3]) RowMajor ["A"; "B"; "C"] "X" 3 0 3 3 1
                 8) eq_refl) as [W G].
  - cbn; lia.
  - unfold INT_MAX; cbn; lia.
  - split; [reflexivity|]; split; [exact W|].
    rewrite (G ltac:(lia) ltac:(cbn; lia) "A" ["B"; "C"] initial_state eq_refl);
      [reflexivity | unfold INT_MAX; cbn; lia].
Defined.

(** ** The two arrangements *)

Lemma fetch_ext {T} (b b' : list T) (f g : Z -> Z) (l : list Z) :
  (forall x, In x l ->
             nth_error b (Z.to_nat (f x)) = nth_error b' (Z.to_nat (g x))) ->
  fetch b (map f l) = fetch b' (map g l).
Proof.
  induction l as [|x l IH]; intros E; cbn [map fetch]; [reflexivity|].
  rewrite (E x (or_introl eq_refl)), IH; [reflexivity|].
  intros y Hy; apply E; now right.
Qed.

Section Transpose.

Context {T : Type} `{Printable T}.
Variable this : Plotter T.
Variables by_columns by_rows : list T.

Hypothesis grid_fits : _rows this * _cols this <= 2 ^ 32.
Hypothesis transposed :
  forall i j,
    0 <= i < _rows this -> 0 <= j < _cols this ->
    nth_error by_rows (Z.to_nat (i * _cols this + j))
    = nth_error by_columns (Z.to_nat (i + j * _rows this)).

Let column_major : Plotter T :=
  with_arrangement (with_data this by_columns) ColumnMajor.
Let row_major : Plotter T :=
  with_arrangement (with_data this by_rows) RowMajor.

Lemma content_values_transposed (rows : list Z) :
  (forall i, In i rows -> 0 <= i < _rows this) ->
  content_values column_major by_columns rows
  = content_values row_major by_rows rows.
Proof.
  induction rows as [|i rows IH]; intros Hr; cbn [content_values];
    [reflexivity|].
  rewrite IH by (intros k Hk; apply Hr; now right).
  assert (Hi : 0 <= i < _rows this) by (apply Hr; now left).
  rewrite (row_indices_exact column_major), (row_indices_exact row_major);
    try assumption.
  cbn [column_major row_major with_arrangement with_data _data_arrangement
       _rows _cols spec_index].
  rewrite (fetch_ext by_columns by_rows
             (fun j => i + j * _rows this) (fun j => i * _cols this + j)).
  - reflexivity.
  - intros j Hj; apply in_zrange in Hj.
    symmetry; apply transposed; lia.
Qed.

(** X18: [ColumnMajor] shows the transposed array: if the element of [by_rows]
    at [i*cols + j] is the element of [by_columns] at [i + j*rows] for every
    cell of the grid, then the object on [by_columns] as [ColumnMajor] and
    the object on [by_rows] as [RowMajor] render the same text. *)
Theorem column_major_is_the_transpose (s s1 : state) (text : string) :
  get_table column_major s = Normal text s1 ->
  exists s2,
    get_table row_major s = Normal text s2 /\
    cout s2 = cout s1 /\ cerr s2 = cerr s1.
Proof.
  intros G.
  assert (C : forall s',
             match print_content column_major s',
                   print_content row_major s' with
             | Normal _ a, Normal _ b =>
               table a = table b /\ cout a = cout b /\ cerr a = cerr b
             | Undefined, Undefined => True
             | _, _ => False
             end).
  { intros s'.
    rewrite (print_content_spec column_major by_columns eq_refl).
    rewrite (print_content_spec row_major by_rows eq_refl).
    change (_rows column_major) with (_rows this).
    change (_rows row_major) with (_rows this).
    rewrite content_values_transposed
      by (intros i Hi; apply in_zrange in Hi; lia).
    destruct (content_values row_major by_rows _); [|exact I].
    repeat split. }
  assert (R : match render column_major s, render row_major s with
              | Normal _ a, Normal _ b =>
                table a = table b /\ cout a = cout b /\ cerr a = cerr b
              | Thrown e a, Thrown e' b => e = e' /\ a = b
              | Undefined, Undefined => True
              | _, _ => False
              end).
  { unfold render, bind.
    change (print_table_header row_major)
      with (print_table_header column_major).
    destruct (print_table_header column_major s) as [[] a|e a|]; auto.
    change (print_columns_header row_major)
      with (print_columns_header column_major).
    destruct (print_columns_header column_major a) as [[] b|e b|]; auto.
    specialize (C b).
    destruct (print_content column_major b) as [[] c|e c|];
      destruct (print_content row_major b) as [[] d|e' d|];
      try contradiction; auto. }
  change (get_table_diagnostic row_major)
    with (get_table_diagnostic column_major) in *.
  destruct (render column_major s) as [[] a|e a|] eqn:Rc;
    destruct (render row_major s) as [[] b|e' b|] eqn:Rr;
    try contradiction.
  - rewrite (get_table_normal _ _ _ Rc) in G; injection G as <- <-.
    rewrite (get_table_normal _ _ _ Rr).
    destruct R as (Rt & Ro & Re).
    eexists; split; [rewrite Rt; reflexivity|].
    cbn [cout cerr]; auto.
  - rewrite (get_table_thrown _ _ _ _ Rc) in G; injection G as <- <-.
    rewrite (get_table_thrown _ _ _ _ Rr).
    destruct R as [<- <-].
    eexists; split; [reflexivity|].
    cbn [cout cerr]; auto.
  - rewrite (get_table_undefined _ _ Rc) in G; discriminate.
Qed.

End Transpose.

(** Six elements by columns, and the same grid by rows. *)
Lemma column_major_is_the_transpose_witness :
  exists (text : string) (s1 s2 : state),
    get_table
      (mkPlotter (Some [1; 2; 3; 4; 5; 6]) ColumnMajor ["A"; "B"] "T" 13 5 6 2
         3 8) initial_state = Normal text s1 /\
    get_table
      (mkPlotter (Some [1; 4; 2; 5; 3; 6]) RowMajor ["A"; "B"] "T" 13 5 6 2 3 8)
      initial_state = Normal text s2.
Proof.
  destruct (get_table
              (mkPlotter (Some [1; 2; 3; 4; 5; 6]) ColumnMajor ["A"; "B"] "T"
                 13 5 6 2 3 8) initial_state) as [text s1|e s1|] eqn:R;
    [|vm_compute in R; discriminate R ..].
  assert (Tr : forall i j : Z,
             0 <= i < 3 -> 0 <= j < 2 ->
             nth_error [1; 4; 2; 5; 3; 6] (Z.to_nat (i * 2 + j))
             = nth_error [1; 2; 3; 4; 5; 6] (Z.to_nat (i + j * 3))).
  { intros i j Hi Hj.
    assert (Ei : i = 0 \/ i = 1 \/ i = 2) by lia.
    assert (Ej : j = 0 \/ j = 1) by lia.
    destruct Ei as [->|[->| ->]]; destruct Ej as [->| ->]; reflexivity. }
  assert (Hg : 3 * 2 <= 2 ^ 32) by lia.
  destruct (column_major_is_the_transpose
              (mkPlotter (Some [1; 2; 3; 4; 5; 6]) ColumnMajor ["A"; "B"] "T"
                 13 5 6 2 3 8) [1; 2; 3; 4; 5; 6] [1; 4; 2; 5; 3; 6]
              Hg Tr initial_state s1 text R) as (s2 & G & _).
  exists text, s1, s2; split; [reflexivity | exact G].
Defined.
